(** * Bovespa insights: the scoring pass of [src/pages/app.tsx]

    A shallow embedding of the effect that maps every [Stock] of the page's
    [data] to a [MappedStock] row, scores it against the insight registry
    and ranks the rows, together with the row-click handler of the table.

    Layout: strings and numbers of the host language, the entity model of
    [src/domain/stock/stock.ts], the projection of one stock, the store
    with the arrays the effect reads and writes, the same pass over a
    store of objects, then the properties. *)

From Stdlib Require Import ZArith Ascii String.
From stdpp Require Import base list list_monad option pretty sorting
  relations.

Local Open Scope N_scope.

(** ** Strings

    A string of the host language is a sequence of UTF-16 code units. *)

Definition jsstring : Type := list N.

(** A literal written in ASCII. *)
Definition str (s : string) : jsstring :=
  (fun a => N_of_ascii a) <$> list_ascii_of_string s.

(** The class [\w] of a regular expression: [[A-Za-z0-9_]]. *)
Definition isWord (c : N) : bool :=
  ((48 <=? c) && (c <=? 57)) || ((65 <=? c) && (c <=? 90))
  || (c =? 95) || ((97 <=? c) && (c <=? 122)).

(** The class [\s]: the white space and line terminator code units. *)
Definition isSpace (c : N) : bool :=
  ((9 <=? c) && (c <=? 13)) || (c =? 32) || (c =? 160) || (c =? 5760)
  || ((8192 <=? c) && (c <=? 8202)) || (c =? 8232) || (c =? 8233)
  || (c =? 8239) || (c =? 8287) || (c =? 12288) || (c =? 65279).

(** One code unit matched by [/[^\w\s]/gi].  Without the [u] flag the
    pattern works on single code units, and the [i] flag changes nothing:
    folding the case of a word character gives a word character, and no
    code unit outside the two classes folds into them. *)
Definition special (c : N) : bool := negb (isWord c || isSpace c).

(** [s.replace(/[^\w\s]/gi, '')]: with the [g] flag every match is
    replaced by the empty string. *)
Definition removeSpecial (s : jsstring) : jsstring :=
  List.filter (fun c => negb (special c)) s.

Local Close Scope N_scope.

(** ** Numbers

    The operations of the type [number] that the page uses.  The entities
    are parsed from JSON ([getStaticProps]), which carries no NaN, so [<]
    is a strict weak order on them. *)

Class JSNumber (number : Type) := {
  zero : number;                          (* the literal [0] *)
  add : number -> number -> number;       (* [a + b] *)
  ltb : number -> number -> bool;         (* [a < b] *)
  toString : number -> jsstring;          (* [`${a}`] *)
  toFixed4 : number -> jsstring;          (* [a.toFixed(4)] *)
  ltb_irrefl : forall a, ltb a a = false;
  ltb_trans : forall a b c, ltb a b = true -> ltb b c = true -> ltb a c = true;
  ltb_cotrans : forall a b c, ltb a c = true -> ltb a b = true \/ ltb b c = true;
  toString_zero : toString zero = str "0"
}.

(** The integers among the numbers, for the examples: the numbers of the
    page are doubles, which add and print like integers as long as every
    value stays below 2^53 in size, as it does in every example below.
    The general statements are made for any [JSNumber]. *)
#[export] Program Instance Z_number : JSNumber Z := {|
  zero := 0%Z;
  add := Z.add;
  ltb := Z.ltb;
  toString := fun z => str (pretty z);
  toFixed4 := fun z => str (pretty z) ++ str ".0000"
|}.
Next Obligation. intros a. apply Z.ltb_irrefl. Qed.
Next Obligation. intros a b c. rewrite !Z.ltb_lt. lia. Qed.
Next Obligation. intros a b c. rewrite !Z.ltb_lt. lia. Qed.
Next Obligation. reflexivity. Qed.

(** The length of an array, as a template literal prints it. *)
Definition showNat (n : nat) : jsstring := str (pretty n).

(** ** The entity model ([src/domain/stock/stock.ts]) *)

Module Holder.
Record t (number : Type) := mk {
  name : jsstring;
  ordinaryShares : number;
  preferredShares : number;
  totalShares : number
}.
Arguments mk {number}.
Arguments name {number}.
Arguments ordinaryShares {number}.
Arguments preferredShares {number}.
Arguments totalShares {number}.
End Holder.

Module StockState.
Record t (number : Type) := mk {
  price : number;
  priceToEarnings : number;
  holders : list (Holder.t number)
}.
Arguments mk {number}.
Arguments price {number}.
Arguments priceToEarnings {number}.
Arguments holders {number}.
End StockState.

Module StockEvent.
Record t (number : Type) := mk {
  date : number;
  amount : number;
  type : jsstring
}.
Arguments mk {number}.
Arguments date {number}.
Arguments amount {number}.
Arguments type {number}.
End StockEvent.

Module StockHistory.
Record t (number : Type) := mk {
  period : jsstring;
  earningsPerShare : number
}.
Arguments mk {number}.
Arguments period {number}.
Arguments earningsPerShare {number}.
End StockHistory.

(** The interface declares [currentState: StockState], but the entities are
    documents of the store parsed from JSON and never validated: [None] is
    a document without the field, on which [stock.currentState.holders]
    throws.  A document may lack other fields as well ([events], [name],
    the [holders] of its state) and the page throws on those too; such
    documents are no values of this type, so nothing below concludes that a
    pass succeeds from the shape of its stocks alone. *)
Module Stock.
Record t (number : Type) := mk {
  name : jsstring;
  business : jsstring;
  currentState : option (StockState.t number);
  events : list (StockEvent.t number);
  history : list (StockHistory.t number)
}.
Arguments mk {number}.
Arguments name {number}.
Arguments business {number}.
Arguments currentState {number}.
Arguments events {number}.
Arguments history {number}.
End Stock.

(** The row of the table ([interface MappedStock]). *)
Module MappedStock.
Record t (number : Type) := mk {
  name : jsstring;
  business : jsstring;
  price : number;
  mainHolder : jsstring;
  totalDividendsLast5Years : jsstring;
  insightsScore : jsstring;
  positiveInsights : nat
}.
Arguments mk {number}.
Arguments name {number}.
Arguments business {number}.
Arguments price {number}.
Arguments mainHolder {number}.
Arguments totalDividendsLast5Years {number}.
Arguments insightsScore {number}.
Arguments positiveInsights {number}.
End MappedStock.

(** The type of the accumulator of the [reduce] over the holders,
    [{ name: string; totalShares: number }]: what the fold reads of a
    holder and all the initial object has. *)
Module Acc.
Record t (number : Type) := mk {
  name : jsstring;
  totalShares : number
}.
Arguments mk {number}.
Arguments name {number}.
Arguments totalShares {number}.

Definition ofHolder {number} (h : Holder.t number) : t number :=
  mk (Holder.name h) (Holder.totalShares h).
End Acc.

(** An insight: [verify(stock)] answers a boolean, at once or through a
    promise; [None] is a call that throws or a promise that rejects.  The
    insight classes are not part of these sources, so the registry is a
    parameter of the pass. *)
Record Insight (number : Type) := {
  verify : Stock.t number -> option bool
}.
Arguments verify {number}.

(** ** The projection of one stock (the callback of [data.map]) *)

Section Projection.
Context {number : Type} `{!JSNumber number}.

(** The initial accumulator [{ name: '', totalShares: 0 }]. *)
Definition noHolder : Acc.t number := Acc.mk (str EmptyString) zero.

(** [stock.currentState.holders.reduce((acc, holder) => ..., noHolder)]. *)
Definition mainHolder (holders : list (Holder.t number)) : Acc.t number :=
  fold_left
    (fun acc holder =>
       if ltb (Acc.totalShares acc) (Holder.totalShares holder)
       then Acc.ofHolder holder
       else acc)
    holders noHolder.

(** The callback of that [reduce], named for the proofs. *)
Definition pickHolder (acc : Acc.t number) (holder : Holder.t number)
  : Acc.t number :=
  if ltb (Acc.totalShares acc) (Holder.totalShares holder)
  then Acc.ofHolder holder
  else acc.

(** [stock.events.reduce((acc, event) => acc + event.amount, 0)]. *)
Definition totalDividendsLast5Years (events : list (StockEvent.t number))
  : number :=
  fold_left (fun acc event => add acc (StockEvent.amount event)) events zero.

(** [await Promise.all(insights.map((i) => i.verify(stock)))]: the verdicts
    in the order of the registry, or a rejection as soon as one call throws
    or one promise rejects. *)
Definition verdicts (insights : list (Insight number)) (stock : Stock.t number)
  : option (list bool) :=
  mapM (fun i => verify i stock) insights.

(** [(...).filter((res) => res).length]. *)
Definition countPositive (vs : list bool) : nat :=
  length (List.filter (fun res => res) vs).

(** [`${positiveInsights}/${insights.length}`]. *)
Definition insightsScore (positiveInsights total : nat) : jsstring :=
  showNat positiveInsights ++ str "/" ++ showNat total.

(** [`${mainHolder.name} (${mainHolder.totalShares}%)`]. *)
Definition mainHolderLabel (m : Acc.t number) : jsstring :=
  Acc.name m ++ str " (" ++ toString (Acc.totalShares m) ++ str "%)".

(** The body of the callback, in the order of the source: the holders are
    read first (and the read throws without a [currentState]), the insights
    are awaited next. *)
Definition mappedStock (insights : list (Insight number))
    (stock : Stock.t number) : option (MappedStock.t number) :=
  currentState ← Stock.currentState stock;
  let mainHolder := mainHolder (StockState.holders currentState) in
  let totalDividendsLast5Years :=
    totalDividendsLast5Years (Stock.events stock) in
  vs ← verdicts insights stock;
  let positiveInsights := countPositive vs in
  let insightsScore := insightsScore positiveInsights (length insights) in
  Some (MappedStock.mk
          (removeSpecial (Stock.name stock))
          (Stock.business stock)
          (StockState.price currentState)
          (mainHolderLabel mainHolder)
          (toFixed4 totalDividendsLast5Years)
          insightsScore
          positiveInsights).

End Projection.

(** ** Ranking

    [Array.prototype.sort] is the engine's.  The language requires it to be
    stable, and for a comparator that is a consistent ordering the stable
    sorted arrangement of an array is unique: insertion from the right,
    which moves an element only past those that must precede it, computes
    it.  [cmp a b > 0] places [a] after [b]. *)

Fixpoint insertSorted {A} (cmp : A -> A -> Z) (x : A) (l : list A) : list A :=
  match l with
  | [] => [x]
  | y :: l' =>
      if (0 <? cmp x y)%Z then y :: insertSorted cmp x l' else x :: l
  end.

Definition arraySort {A} (cmp : A -> A -> Z) (l : list A) : list A :=
  foldr (insertSorted cmp) [] l.

(** [(a, b) => b.positiveInsights - a.positiveInsights]. *)
Definition byScore {number} (a b : MappedStock.t number) : Z :=
  (Z.of_nat (MappedStock.positiveInsights b)
   - Z.of_nat (MappedStock.positiveInsights a))%Z.

(** ** The store and the effect

    Arrays are mutable objects named by references; a reference is the
    index of the array in the store.  The stocks themselves are values: the
    page never assigns to a field of one. *)

Inductive Array (number : Type) :=
| StockArray (xs : list (Stock.t number))
| RowArray (xs : list (MappedStock.t number)).
Arguments StockArray {number}.
Arguments RowArray {number}.

(** The state of the component: the store, and the two [useState] cells
    [mappedData] (a reference to the array on display) and [stock] (the
    entity of the open detail view, or [null]). *)
Record AppState (number : Type) := {
  store : list (Array number);
  mappedData : nat;
  stock : option (Stock.t number)
}.
Arguments store {number}.
Arguments mappedData {number}.
Arguments stock {number}.

Section Effect.
Context {number : Type} `{!JSNumber number}.

(** Reading the prop [data: Stock[]] through its reference. *)
Definition readStocks (σ : list (Array number)) (data : nat)
  : option (list (Stock.t number)) :=
  match σ !! data with
  | Some (StockArray xs) => Some xs
  | _ => None
  end.

(** Reading an array of rows through its reference. *)
Definition readRows (σ : list (Array number)) (r : nat)
  : option (list (MappedStock.t number)) :=
  match σ !! r with
  | Some (RowArray xs) => Some xs
  | _ => None
  end.

(** [new array]: the store grows by one array; its reference is returned. *)
Definition alloc (a : Array number) (σ : list (Array number))
  : nat * list (Array number) :=
  (length σ, σ ++ [a]).

(** [r.sort(byScore)]: sorts the array behind [r] in place. *)
Definition sortInPlace (r : nat) (σ : list (Array number))
  : list (Array number) :=
  alter (fun a => match a with
                  | RowArray xs => RowArray (arraySort byScore xs)
                  | StockArray xs => StockArray xs
                  end) r σ.

(** The effect of [React.useEffect], run to the end of its [async] body.
    [data] is the prop: a reference to the array of stocks, or nothing.
    [None] is the rejection of the body's promise: [setMappedData] is
    never reached and the component keeps the state it had. *)
Definition useEffect (insights : list (Insight number)) (data : option nat)
    (w : AppState number) : option (AppState number) :=
  match data with
  | None => Some w
  | Some d =>
      stocks ← readStocks (store w) d;
      rows ← mapM (mappedStock insights) stocks;
      let '(mappedData, σ) := alloc (RowArray rows) (store w) in
      let σ := sortInPlace mappedData σ in
      Some {| store := σ; mappedData := mappedData; stock := stock w |}
  end.

(** [onRowClick] of the table: [data.find((s) => s.name === stock.name)],
    then [setStock] when a stock was found. *)
Definition onRowClick (data : nat) (row : MappedStock.t number)
    (w : AppState number) : option (AppState number) :=
  stocks ← readStocks (store w) data;
  match List.find (fun s => bool_decide (Stock.name s = MappedStock.name row))
                  stocks with
  | Some _stock =>
      Some {| store := store w; mappedData := mappedData w;
              stock := Some _stock |}
  | None => Some w
  end.

End Effect.

(** ** The detail view

    What the rendering reads of the cell [stock], and the handler of the
    close button. *)

(** [onClick] of the close button: [setStock(null)]. *)
Definition closeInsights {number} (w : AppState number) : AppState number :=
  {| store := store w; mappedData := mappedData w; stock := None |}.

(** [data-closed={!stock}]: an object is truthy, [null] is not. *)
Definition closed {number} (w : AppState number) : bool :=
  match stock w with
  | Some _ => false
  | None => true
  end.

(** The title of the panel, [stock?.name ?? ''] with the empty string as
    the default. *)
Definition insightsTitle {number} (w : AppState number) : jsstring :=
  match stock w with
  | Some s => Stock.name s
  | None => str EmptyString
  end.

(** ** The page as a transition system

    What can happen to the component once it is mounted with the prop
    [data] behind the reference [d]: the effect runs to its end, a row on
    display is clicked, or the close button is clicked.  An effect that
    rejects, or a click that throws, leaves the state as it is and is no
    transition. *)

Inductive pageStep {number} `{!JSNumber number}
    (insights : list (Insight number)) (d : nat)
  : AppState number -> AppState number -> Prop :=
| EffectRuns w w' :
    useEffect insights (Some d) w = Some w' ->
    pageStep insights d w w'
| RowClicked w w' rows row :
    readRows (store w) (mappedData w) = Some rows ->
    row ∈ rows ->
    onRowClick d row w = Some w' ->
    pageStep insights d w w'
| CloseClicked w :
    pageStep insights d w (closeInsights w).

(** ** The pass, object by object

    The embedding above takes a stock as a value.  In the page a stock is
    an object: it is reached through a reference and open to writes, and so
    are its [currentState], the arrays of its holders, events and history,
    and the array [data] itself.  Here the pass is written once more as a
    program over a store of such objects, with one primitive for each kind
    of access the source makes, so that what the pass reads and what it
    writes are told apart.  The computations on the values read are the
    ones defined above. *)

Inductive Obj (number : Type) :=
| HoldersObj (holders : list (Holder.t number))
| EventsObj (events : list (StockEvent.t number))
| HistoryObj (history : list (StockHistory.t number))
| StateObj (price priceToEarnings : number) (holders : nat)
| StockObj (name business : jsstring) (currentState : option nat)
           (events history : nat)
| DataObj (stocks : list nat)
| RowsObj (rows : list (MappedStock.t number)).
Arguments HoldersObj {number}.
Arguments EventsObj {number}.
Arguments HistoryObj {number}.
Arguments StateObj {number}.
Arguments StockObj {number}.
Arguments DataObj {number}.
Arguments RowsObj {number}.

(** A computation runs on a store and leaves a store; [None] is a throw
    or a rejection, and what was written before it stays written. *)
Definition M (number A : Type) : Type :=
  list (Obj number) -> option A * list (Obj number).

#[export] Instance M_ret {number} : MRet (M number) :=
  fun A a σ => (Some a, σ).

#[export] Instance M_bind {number} : MBind (M number) :=
  fun A B k m σ =>
    match m σ with
    | (Some a, σ') => k a σ'
    | (None, σ') => (None, σ')
    end.

(** An insight of the page: [verify] is handed the stock object and runs
    on the store. *)
Record InsightM (number : Type) := {
  verifyM : nat -> M number bool
}.
Arguments verifyM {number}.

(** The fields of the objects, as a read finds them: nothing when the
    object is of another kind or lacks the field. *)
Definition stockName {number} (o : Obj number) : option jsstring :=
  match o with StockObj name _ _ _ _ => Some name | _ => None end.
Definition stockBusiness {number} (o : Obj number) : option jsstring :=
  match o with StockObj _ business _ _ _ => Some business | _ => None end.
Definition stockCurrentState {number} (o : Obj number) : option nat :=
  match o with StockObj _ _ currentState _ _ => currentState | _ => None end.
Definition stockEvents {number} (o : Obj number) : option nat :=
  match o with StockObj _ _ _ events _ => Some events | _ => None end.
Definition stockHistory {number} (o : Obj number) : option nat :=
  match o with StockObj _ _ _ _ history => Some history | _ => None end.
Definition statePrice {number} (o : Obj number) : option number :=
  match o with StateObj price _ _ => Some price | _ => None end.
Definition statePriceToEarnings {number} (o : Obj number) : option number :=
  match o with StateObj _ pe _ => Some pe | _ => None end.
Definition stateHolders {number} (o : Obj number) : option nat :=
  match o with StateObj _ _ holders => Some holders | _ => None end.
Definition holdersElems {number} (o : Obj number)
  : option (list (Holder.t number)) :=
  match o with HoldersObj holders => Some holders | _ => None end.
Definition eventsElems {number} (o : Obj number)
  : option (list (StockEvent.t number)) :=
  match o with EventsObj events => Some events | _ => None end.
Definition historyElems {number} (o : Obj number)
  : option (list (StockHistory.t number)) :=
  match o with HistoryObj history => Some history | _ => None end.
Definition dataElems {number} (o : Obj number) : option (list nat) :=
  match o with DataObj stocks => Some stocks | _ => None end.

Section ObjectStore.
Context {number : Type} `{!JSNumber number}.

(** A read through the reference [r]: the store is left as it is; the
    read throws when nothing usable is found. *)
Definition field {A} (r : nat) (f : Obj number -> option A) : M number A :=
  fun σ => (σ !! r ≫= f, σ).

(** A new object: the store grows by it, and its reference is returned. *)
Definition newObj (o : Obj number) : M number nat :=
  fun σ => (Some (length σ), σ ++ [o]).

(** [rows.sort(byScore)]: sorts the array behind [r] where it lies, and
    returns that array. *)
Definition sortRows (r : nat) : M number nat :=
  fun σ =>
    match σ !! r with
    | Some (RowsObj rows) =>
        (Some r, <[r := RowsObj (arraySort byScore rows)]> σ)
    | _ => (None, σ)
    end.

(** The callback of [data.map], access by access in the order of the
    source (lines 55 to 84). *)
Definition mappedStockM (insights : list (InsightM number)) (stock : nat)
  : M number (MappedStock.t number) :=
  currentState ← field stock stockCurrentState;
  holders ← field currentState stateHolders;
  hs ← field holders holdersElems;
  let mainHolder := mainHolder hs in
  events ← field stock stockEvents;
  es ← field events eventsElems;
  let totalDividendsLast5Years := totalDividendsLast5Years es in
  vs ← mapM (fun i => verifyM i stock) insights;
  let positiveInsights := countPositive vs in
  let insightsScore := insightsScore positiveInsights (length insights) in
  name ← field stock stockName;
  business ← field stock stockBusiness;
  price ← field currentState statePrice;
  mret (MappedStock.mk
          (removeSpecial name)
          business
          price
          (mainHolderLabel mainHolder)
          (toFixed4 totalDividendsLast5Years)
          insightsScore
          positiveInsights).

(** The body of the effect (lines 53 to 88): the rows of all the stocks of
    [data] go into a new array, that array is sorted, and its reference is
    what [setMappedData] receives. *)
Definition passM (insights : list (InsightM number)) (data : nat)
  : M number nat :=
  stocks ← field data dataElems;
  rows ← mapM (mappedStockM insights) stocks;
  mappedData ← newObj (RowsObj rows);
  sortRows mappedData.

(** The stock object behind [r] as a value: the view an insight that only
    reads has of it. *)
Definition loadState (σ : list (Obj number)) (r : nat)
  : option (StockState.t number) :=
  price ← σ !! r ≫= statePrice;
  pe ← σ !! r ≫= statePriceToEarnings;
  holders ← σ !! r ≫= stateHolders;
  hs ← σ !! holders ≫= holdersElems;
  Some (StockState.mk price pe hs).

Definition loadStock (σ : list (Obj number)) (r : nat)
  : option (Stock.t number) :=
  name ← σ !! r ≫= stockName;
  business ← σ !! r ≫= stockBusiness;
  events ← σ !! r ≫= stockEvents;
  es ← σ !! events ≫= eventsElems;
  history ← σ !! r ≫= stockHistory;
  hs ← σ !! history ≫= historyElems;
  match σ !! r ≫= stockCurrentState with
  | None => Some (Stock.mk name business None es hs)
  | Some currentState =>
      st ← loadState σ currentState;
      Some (Stock.mk name business (Some st) es hs)
  end.

(** An insight given as a function of the value of the stock, run on the
    store: it loads the stock and answers. *)
Definition ofPure (i : Insight number) : InsightM number :=
  {| verifyM := fun stock σ => (loadStock σ stock ≫= verify i, σ) |}.

End ObjectStore.

(** Modelled from the spec: the insight classes are not part of these
    sources, so what their [verify] does to the store is taken from the
    contract of section 4.1, "The evaluation operation must be pure (no
    side effects on the entity)": an evaluation may read, and may create
    objects of its own, but every object that exists when it starts is
    the same when it ends, whether it answers or throws. *)
Definition readOnly {number} (i : InsightM number) : Prop :=
  forall (stock : nat) (σ : list (Obj number)),
    σ `prefix_of` (verifyM i stock σ).2.

(** ** Fixtures: integer-valued entities used in the examples *)

Definition holderZ (name : string) (totalShares : Z) : Holder.t Z :=
  Holder.mk (str name) 0%Z totalShares totalShares.

Definition eventZ (date amount : Z) (type : string) : StockEvent.t Z :=
  StockEvent.mk date amount (str type).

Definition stockZ (name : string) (holders : list (Holder.t Z))
    (events : list (StockEvent.t Z)) : Stock.t Z :=
  Stock.mk (str name) (str "bank")
           (Some (StockState.mk 10%Z 7%Z holders)) events [].


(** An insight that always answers [b], one that always throws, and one
    that throws on the stocks named [name] only. *)
Definition always (b : bool) : Insight Z := {| verify := fun _ => Some b |}.
Definition throwing : Insight Z := {| verify := fun _ => None |}.

(** An insight that answers [true] on the stocks named [name] only. *)
Definition likes (name : string) : Insight Z :=
  {| verify := fun s => Some (bool_decide (Stock.name s = str name)) |}.

(** A store with two stocks, PETR4 behind reference 4 and B3 S.A. behind
    reference 9, and the array [data] behind reference 10. *)
Definition storeZ : list (Obj Z) :=
  [ HoldersObj [holderZ "A" 40; holderZ "B" 60];
    StateObj 10%Z 7%Z 0;
    EventsObj [eventZ 0 3 "split"; eventZ 2024 4 "dividend"];
    HistoryObj [];
    StockObj (str "PETR4") (str "oil") (Some 1) 2 3;
    HoldersObj [];
    StateObj 12%Z 9%Z 5;
    EventsObj [];
    HistoryObj [];
    StockObj (str "B3 S.A.") (str "exchange") (Some 6) 7 8;
    DataObj [4; 9] ].

(** An insight that empties the events of the stock it is asked about. *)
Definition clearsEvents : InsightM Z :=
  {| verifyM := fun stock σ =>
       match σ !! stock ≫= stockEvents with
       | Some events => (Some true, <[events := EventsObj []]> σ)
       | None => (None, σ)
       end |}.

(** A row with a name and a score. *)
Definition rowZ (name : string) (k : nat) : MappedStock.t Z :=
  MappedStock.mk (str name) (str "bank") 10%Z (str " (0%)") (str "0.0000")
    (showNat k ++ str "/4") k.

(** A row with another score. *)
Definition withScore {number} (m : MappedStock.t number) (k : nat)
  : MappedStock.t number :=
  MappedStock.mk (MappedStock.name m) (MappedStock.business m)
    (MappedStock.price m) (MappedStock.mainHolder m)
    (MappedStock.totalDividendsLast5Years m) (MappedStock.insightsScore m) k.

(** The component before the effect ran: the array of the prop at
    reference 0, the initial [[]] of [useState] at reference 1, no detail
    view. *)
Definition initialState {number} (data : list (Stock.t number))
  : AppState number :=
  {| store := [StockArray data; RowArray []]; mappedData := 1; stock := None |}.

(** ** Specification predicates *)

(** [m] is the first holder of [hs] with the greatest [totalShares]: it
    stands at some index, no holder has strictly more, every holder before
    it has strictly less. *)
Definition firstMaxHolder `{!JSNumber number}
    (hs : list (Holder.t number)) (m : Acc.t number) : Prop :=
  exists i h,
    hs !! i = Some h /\ m = Acc.ofHolder h /\
    (forall j h', hs !! j = Some h' ->
       ltb (Holder.totalShares h) (Holder.totalShares h') = false) /\
    (forall j h', j < i -> hs !! j = Some h' ->
       ltb (Holder.totalShares h') (Holder.totalShares h) = true).

(** [a] may stand before [b] in the ranking. *)
Definition scoreGe {number} (a b : MappedStock.t number) : Prop :=
  MappedStock.positiveInsights b <= MappedStock.positiveInsights a.

(** What holds of the page however it got to the state [w], for the
    stocks [data] it was mounted with: the array of the prop holds them;
    every row on display is the row of one of them; the detail view, when
    open, shows one of them, and one whose name has no character outside
    [\w] and [\s]. *)
Definition pageInv {number} `{!JSNumber number}
    (insights : list (Insight number)) (d : nat)
    (data : list (Stock.t number)) (w : AppState number) : Prop :=
  readStocks (store w) d = Some data /\
  (exists rows,
     readRows (store w) (mappedData w) = Some rows /\
     Forall (fun row => exists s, s ∈ data /\
                                  mappedStock insights s = Some row) rows) /\
  (forall s, stock w = Some s ->
     s ∈ data /\ Forall (fun c => special c = false) (Stock.name s)).

(** The computation [m] leaves the objects of [base] as they are, and
    what it returns satisfies [Q]. *)
Definition keeps {number A} (base : list (Obj number)) (m : M number A)
    (Q : A -> Prop) : Prop :=
  forall σ, base `prefix_of` σ ->
    base `prefix_of` (m σ).2 /\ forall a, (m σ).1 = Some a -> Q a.

(** * Properties *)

(** ** The main holder *)

Section MainHolder.
Context {number : Type} `{!JSNumber number}.
Implicit Types (h : Holder.t number) (hs : list (Holder.t number)).
Implicit Types (acc : Acc.t number).

Lemma ltb_asym (a b : number) : ltb a b = true -> ltb b a = false.
Proof.
  intros Hab. destruct (ltb b a) eqn:Hba; [|done].
  by rewrite <-(ltb_irrefl a), (ltb_trans a b a).
Qed.

(** The fold from any accumulator: either nothing beats the accumulator and
    it is returned, or the first holder with the greatest [totalShares]
    among those that beat it is. *)
Lemma fold_pickHolder hs : forall acc,
  (fold_left pickHolder hs acc = acc /\
   forall h, h ∈ hs ->
     ltb (Acc.totalShares acc) (Holder.totalShares h) = false)
  \/
  (ltb (Acc.totalShares acc)
       (Acc.totalShares (fold_left pickHolder hs acc)) = true /\
   firstMaxHolder hs (fold_left pickHolder hs acc)).
Proof.
  induction hs as [|h0 hs IH]; intros acc; simpl.
  { left. split; [done|]. intros h Hh. by apply elem_of_nil in Hh. }
  unfold pickHolder at 2 4 6.
  destruct (ltb (Acc.totalShares acc) (Holder.totalShares h0)) eqn:Hlt.
  - right. destruct (IH (Acc.ofHolder h0)) as [[-> Hall]|[Hgt Hmax]].
    + split; [done|]. exists 0, h0. repeat split; [|intros; lia].
      intros [|j] h' Hj; simplify_eq/=; [apply ltb_irrefl|].
      apply Hall. by eapply list_elem_of_lookup_2.
    + split; [by eapply ltb_trans|].
      destruct Hmax as (i & h & Hi & Heq & Hge & Hbefore).
      rewrite Heq in Hgt |- *. simpl in Hgt.
      exists (S i), h. repeat split; [done|..].
      * intros [|j] h' Hj; simplify_eq/=; [by apply ltb_asym|by eapply Hge].
      * intros [|j] h' Hlt' Hj; simplify_eq/=; [done|].
        eapply Hbefore; [|done]. lia.
  - destruct (IH acc) as [[-> Hall]|[Hgt Hmax]].
    + left. split; [done|]. intros h [->|Hh]%elem_of_cons; auto.
    + right. split; [done|].
      destruct Hmax as (i & h & Hi & Heq & Hge & Hbefore).
      rewrite Heq in Hgt |- *. simpl in Hgt.
      assert (ltb (Holder.totalShares h0) (Holder.totalShares h) = true)
        as Hh0.
      { destruct (ltb_cotrans _ (Holder.totalShares h0) _ Hgt); congruence. }
      exists (S i), h. repeat split; [done|..].
      * intros [|j] h' Hj; simplify_eq/=; [by apply ltb_asym|by eapply Hge].
      * intros [|j] h' Hlt' Hj; simplify_eq/=; [done|].
        eapply Hbefore; [|done]. lia.
Qed.

Lemma mainHolder_cases hs :
  (mainHolder hs = noHolder /\
   forall h, h ∈ hs -> ltb zero (Holder.totalShares h) = false)
  \/
  (ltb zero (Acc.totalShares (mainHolder hs)) = true /\
   firstMaxHolder hs (mainHolder hs)).
Proof. apply (fold_pickHolder hs noHolder). Qed.

Lemma mainHolderLabel_noHolder : mainHolderLabel noHolder = str " (0%)".
Proof. unfold mainHolderLabel, noHolder. simpl. by rewrite toString_zero. Qed.

End MainHolder.

(** C3, as stated, fails: a holder list that is not empty but whose only
    holder has no shares leaves the initial accumulator in place, and that
    accumulator is no holder of the list. *)
Lemma main_holder_without_shares :
  [holderZ "A" 0] <> [] /\
  mainHolder [holderZ "A" 0] = noHolder /\
  ~ firstMaxHolder [holderZ "A" 0] (mainHolder [holderZ "A" 0]).
Proof.
  split; [done|]. split; [reflexivity|].
  intros (i & h & Hi & Heq & _).
  destruct i as [|i]; simplify_eq/=.
Qed.

(** C3, amended: when some holder has a [totalShares] above 0, the main
    holder is the holder with the greatest [totalShares], the first of them
    on a tie; for A:40, B:60, C:60 it is B. *)
Theorem main_holder_first_max :
  (forall (number : Type) (N : JSNumber number) (hs : list (Holder.t number)),
     Exists (fun h => ltb zero (Holder.totalShares h) = true) hs ->
     firstMaxHolder hs (mainHolder hs)) /\
  mainHolder [holderZ "A" 40; holderZ "B" 60; holderZ "C" 60]
  = Acc.ofHolder (holderZ "B" 60).
Proof.
  split; [|reflexivity].
  intros number N hs Hex.
  destruct (mainHolder_cases hs) as [[_ Hall]|[_ Hmax]]; [|done].
  apply Exists_exists in Hex as (h & Hh & Hpos).
  rewrite (Hall h Hh) in Hpos. discriminate.
Qed.

Lemma main_holder_first_max_witness :
  Exists (fun h => ltb zero (Holder.totalShares h) = true)
         [holderZ "A" 40; holderZ "C" 60; holderZ "B" 60] /\
  firstMaxHolder [holderZ "A" 40; holderZ "C" 60; holderZ "B" 60]
                 (Acc.mk (str "C") 60%Z).
Proof.
  split.
  - apply Exists_cons_hd. reflexivity.
  - apply (proj1 main_holder_first_max Z Z_number
             [holderZ "A" 40; holderZ "C" 60; holderZ "B" 60]).
    apply Exists_cons_hd. reflexivity.
Defined.

(** C10: with no holder, or with no holder above 0, the main holder is the
    initial accumulator [{ name: '', totalShares: 0 }] and the row shows
    [" (0%)"]; whenever the fold returns anything else, it is a holder of
    the list with a [totalShares] strictly above 0. *)
Theorem main_holder_sentinel (number : Type) (N : JSNumber number)
    (hs : list (Holder.t number)) :
  (hs = [] -> mainHolder hs = noHolder) /\
  (Forall (fun h => ltb zero (Holder.totalShares h) = false) hs ->
     mainHolder hs = noHolder /\
     mainHolderLabel (mainHolder hs) = str " (0%)" /\
     forall insights s st m,
       Stock.currentState s = Some st -> StockState.holders st = hs ->
       mappedStock insights s = Some m ->
       MappedStock.mainHolder m = str " (0%)") /\
  (mainHolder hs <> noHolder ->
     ltb zero (Acc.totalShares (mainHolder hs)) = true /\
     firstMaxHolder hs (mainHolder hs)).
Proof.
  split; [by intros ->|]. split.
  - intros Hall.
    assert (mainHolder hs = noHolder) as Hno.
    { destruct (mainHolder_cases hs) as [[? _]|[Hgt Hmax]]; [done|].
      destruct Hmax as (i & h & Hi & Heq & _).
      rewrite Heq in Hgt. simpl in Hgt.
      rewrite Forall_forall in Hall.
      rewrite (Hall h) in Hgt; [done|by eapply list_elem_of_lookup_2]. }
    split; [done|]. rewrite Hno. split; [apply mainHolderLabel_noHolder|].
    intros insights s st m Hst Hhs Hm. unfold mappedStock in Hm.
    rewrite Hst in Hm. simpl in Hm.
    destruct (verdicts insights s); simplify_eq/=.
    rewrite Hno. apply mainHolderLabel_noHolder.
  - intros Hne. by destruct (mainHolder_cases hs) as [[? _]|?].
Qed.

Lemma main_holder_sentinel_witness :
  Forall (fun h => ltb zero (Holder.totalShares h) = false)
         [holderZ "A" 0; holderZ "B" (-3)] /\
  mainHolder [holderZ "A" 0; holderZ "B" (-3)] = noHolder /\
  match mappedStock [always true]
          (stockZ "X" [holderZ "A" 0; holderZ "B" (-3)] []) with
  | Some m => MappedStock.mainHolder m = str " (0%)"
  | None => False
  end /\
  mainHolder [holderZ "A" 0; holderZ "B" 5] <> noHolder /\
  ltb zero (Acc.totalShares (mainHolder [holderZ "A" 0; holderZ "B" 5])) = true.
Proof.
  assert (Forall (fun h => ltb zero (Holder.totalShares h) = false)
                 [holderZ "A" 0; holderZ "B" (-3)]) as Hall.
  { repeat constructor. }
  split; [exact Hall|].
  destruct (main_holder_sentinel Z Z_number [holderZ "A" 0; holderZ "B" (-3)])
    as (_ & Hsent & _).
  destruct (Hsent Hall) as (Hno & _ & Hrow).
  split; [exact Hno|]. split.
  - destruct (mappedStock [always true]
                (stockZ "X" [holderZ "A" 0; holderZ "B" (-3)] [])) as [m|] eqn:Hm.
    + eapply Hrow; [| |exact Hm]; reflexivity.
    + vm_compute in Hm. discriminate Hm.
  - assert (mainHolder [holderZ "A" 0; holderZ "B" 5] <> noHolder) as Hne.
    { discriminate. }
    split; [exact Hne|].
    apply (main_holder_sentinel Z Z_number [holderZ "A" 0; holderZ "B" 5]).
    exact Hne.
Defined.

(** ** The dividends total *)

Section Dividends.
Context {number : Type} `{!JSNumber number}.
Implicit Types (e : StockEvent.t number) (es : list (StockEvent.t number)).

Lemma totalDividends_snoc es e :
  totalDividendsLast5Years (es ++ [e])
  = add (totalDividendsLast5Years es) (StockEvent.amount e).
Proof. unfold totalDividendsLast5Years. by rewrite fold_left_app. Qed.

Lemma totalDividends_amounts_only es (d : StockEvent.t number -> number)
    (t : StockEvent.t number -> jsstring) :
  totalDividendsLast5Years
    ((fun e => StockEvent.mk (d e) (StockEvent.amount e) (t e)) <$> es)
  = totalDividendsLast5Years es.
Proof.
  unfold totalDividendsLast5Years. generalize (zero (number:=number)).
  induction es as [|e es IH]; intros acc; simpl; [done|]. apply IH.
Qed.

Lemma totalDividends_of_amounts es :
  totalDividendsLast5Years es
  = fold_left add (StockEvent.amount <$> es) zero.
Proof.
  unfold totalDividendsLast5Years. generalize (zero (number:=number)).
  induction es as [|e es IH]; intros acc; simpl; [done|]. apply IH.
Qed.

End Dividends.

(** C2: the field [totalDividendsLast5Years] of the row of a stock prints
    the sum of the amounts of all the events of that stock.  The number
    printed is the fold over [stock.events], which is the sum, from 0 and
    in order, of the list of the amounts of all of them; that fold starts
    at 0 and every further event adds its amount, whatever its date and
    its type;
    rewriting the dates and the types of the events changes nothing; and
    two stocks whose events carry the same amounts show the same field. *)
Theorem total_dividends_sums_all_events (number : Type) (N : JSNumber number)
    (insights : list (Insight number)) (s : Stock.t number)
    (row : MappedStock.t number) :
  mappedStock insights s = Some row ->
  MappedStock.totalDividendsLast5Years row
  = toFixed4 (totalDividendsLast5Years (Stock.events s)) /\
  totalDividendsLast5Years (Stock.events s)
  = fold_left add (StockEvent.amount <$> Stock.events s) zero /\
  totalDividendsLast5Years (@nil (StockEvent.t number)) = zero /\
  (forall es e, totalDividendsLast5Years (es ++ [e])
                = add (totalDividendsLast5Years es) (StockEvent.amount e)) /\
  (forall d t,
     totalDividendsLast5Years
       ((fun e => StockEvent.mk (d e) (StockEvent.amount e) (t e))
          <$> Stock.events s)
     = totalDividendsLast5Years (Stock.events s)) /\
  (forall s' row',
     mappedStock insights s' = Some row' ->
     StockEvent.amount <$> Stock.events s'
     = StockEvent.amount <$> Stock.events s ->
     MappedStock.totalDividendsLast5Years row'
     = MappedStock.totalDividendsLast5Years row).
Proof.
  intros Hrow.
  assert (forall s0 row0, mappedStock insights s0 = Some row0 ->
            MappedStock.totalDividendsLast5Years row0
            = toFixed4 (totalDividendsLast5Years (Stock.events s0))) as Hfield.
  { intros s0 row0 Hrow0.
    unfold mappedStock in Hrow0.
    destruct (Stock.currentState s0) as [st|]; [|done]. simpl in Hrow0.
    destruct (verdicts insights s0) as [vs|]; [|done].
    by injection Hrow0 as <-. }
  split; [by apply Hfield|]. split; [apply totalDividends_of_amounts|].
  split; [reflexivity|]. split; [apply totalDividends_snoc|].
  split; [apply totalDividends_amounts_only|].
  intros s' row' Hrow' Hamounts.
  rewrite (Hfield s' row' Hrow'), (Hfield s row Hrow).
  by rewrite !totalDividends_of_amounts, Hamounts.
Qed.

Lemma total_dividends_sums_all_events_witness :
  exists row,
    mappedStock [always true]
      (stockZ "X" [] [eventZ 0 3 "split"; eventZ 2024 4 "dividend"])
    = Some row /\
    MappedStock.totalDividendsLast5Years row = str "7.0000".
Proof.
  eexists. split; [reflexivity|].
  destruct (total_dividends_sums_all_events Z Z_number [always true]
              (stockZ "X" [] [eventZ 0 3 "split"; eventZ 2024 4 "dividend"])
              _ eq_refl) as [Hfield _].
  exact Hfield.
Defined.

(** ** Verdicts and score *)

Section Verdicts.
Context {number : Type} `{!JSNumber number}.
Implicit Types (insights : list (Insight number)) (s : Stock.t number).

Lemma verdicts_Some insights s vs :
  verdicts insights s = Some vs <->
  Forall2 (fun i v => verify i s = Some v) insights vs.
Proof. apply mapM_Some. Qed.

Lemma verdicts_is_Some insights s :
  is_Some (verdicts insights s) <->
  Forall (fun i => is_Some (verify i s)) insights.
Proof. apply mapM_is_Some. Qed.

Lemma countPositive_le (vs : list bool) : countPositive vs <= length vs.
Proof. apply List.filter_length_le. Qed.

Lemma countPositive_count_occ (vs : list bool) :
  countPositive vs = count_occ Bool.bool_dec vs true.
Proof.
  unfold countPositive.
  induction vs as [|[] vs IH]; simpl; [done|by rewrite IH|done].
Qed.

(** What a row is made of, when the callback returns one. *)
Lemma mappedStock_Some insights s m :
  mappedStock insights s = Some m <->
  exists st vs,
    Stock.currentState s = Some st /\ verdicts insights s = Some vs /\
    m = MappedStock.mk
          (removeSpecial (Stock.name s)) (Stock.business s)
          (StockState.price st)
          (mainHolderLabel (mainHolder (StockState.holders st)))
          (toFixed4 (totalDividendsLast5Years (Stock.events s)))
          (insightsScore (countPositive vs) (length insights))
          (countPositive vs).
Proof.
  unfold mappedStock. split.
  - destruct (Stock.currentState s) as [st|]; [|done]. simpl.
    destruct (verdicts insights s) as [vs|]; [|done]. simpl.
    intros [= <-]. by exists st, vs.
  - intros (st & vs & -> & -> & ->). done.
Qed.


End Verdicts.

(** C5, as stated, fails: a registry of two insights of which the second
    throws yields no verdicts at all, not two. *)
Lemma verdicts_lost_on_failure :
  ~ exists vs,
      verdicts [always true; throwing] (stockZ "A" [] []) = Some vs /\
      length vs = length [always true; throwing].
Proof. intros (vs & Hvs & _). vm_compute in Hvs. discriminate Hvs. Qed.

(** C5, amended: the evaluation of a stock against a registry produces
    verdicts exactly when every insight of the registry succeeds on the
    stock; the verdicts are then as many as the insights, and the k-th is
    the answer of the k-th insight. *)
Theorem verdicts_in_registry_order (number : Type) (N : JSNumber number)
    (insights : list (Insight number)) (s : Stock.t number) :
  (is_Some (verdicts insights s) <->
   Forall (fun i => is_Some (verify i s)) insights) /\
  (forall vs, verdicts insights s = Some vs ->
     length vs = length insights /\
     forall k i, insights !! k = Some i -> verify i s = vs !! k /\
                                            is_Some (vs !! k)).
Proof.
  split; [apply verdicts_is_Some|].
  intros vs Hvs%verdicts_Some. split; [by erewrite <-Forall2_length|].
  intros k i Hk.
  destruct (Forall2_lookup_l _ _ _ _ _ Hvs Hk) as (v & -> & ->). eauto.
Qed.

Lemma verdicts_in_registry_order_witness :
  verdicts [always true; always false; always true] (stockZ "A" [] [])
  = Some [true; false; true] /\
  length [true; false; true]
  = length [always true; always false; always true].
Proof.
  split; [reflexivity|].
  apply (proj2 (verdicts_in_registry_order Z Z_number
                  [always true; always false; always true]
                  (stockZ "A" [] []))
               [true; false; true] eq_refl).
Defined.

(** C6: the count of positive insights of a row never exceeds the size of
    the registry. *)
Theorem positive_insights_le_total (number : Type) (N : JSNumber number)
    (insights : list (Insight number)) (s : Stock.t number)
    (m : MappedStock.t number) :
  mappedStock insights s = Some m ->
  MappedStock.positiveInsights m <= length insights.
Proof.
  intros (st & vs & _ & Hvs & ->)%mappedStock_Some. simpl.
  apply verdicts_Some, Forall2_length in Hvs. rewrite Hvs.
  apply countPositive_le.
Qed.

Lemma positive_insights_le_total_witness :
  exists m,
    mappedStock [always true; always false; always true; always true]
                (stockZ "A" [] []) = Some m /\
    MappedStock.positiveInsights m = 3 /\
    MappedStock.positiveInsights m <= 4.
Proof.
  eexists. split; [reflexivity|]. split; [reflexivity|].
  apply (positive_insights_le_total Z Z_number
           [always true; always false; always true; always true]
           (stockZ "A" [] []) _ eq_refl).
Defined.

(** C7: the score of a row is the decimal count of the [true] verdicts, a
    slash, and the decimal size of the registry. *)
Theorem insights_score_format (number : Type) (N : JSNumber number)
    (insights : list (Insight number)) (s : Stock.t number)
    (m : MappedStock.t number) :
  mappedStock insights s = Some m ->
  exists vs,
    verdicts insights s = Some vs /\
    MappedStock.positiveInsights m = count_occ Bool.bool_dec vs true /\
    MappedStock.insightsScore m
    = str (pretty (count_occ Bool.bool_dec vs true))
      ++ str "/" ++ str (pretty (length insights)).
Proof.
  intros (st & vs & _ & Hvs & ->)%mappedStock_Some. exists vs. simpl.
  by rewrite countPositive_count_occ.
Qed.

Lemma insights_score_format_witness :
  exists m,
    mappedStock [always true; always false; always true; always true]
                (stockZ "A" [] []) = Some m /\
    MappedStock.insightsScore m = str "3/4".
Proof.
  eexists. split; [reflexivity|].
  destruct (insights_score_format Z Z_number
              [always true; always false; always true; always true]
              (stockZ "A" [] []) _ eq_refl) as (vs & Hvs & _ & Hscore).
  injection Hvs as <-. exact Hscore.
Defined.

(** ** Ranking *)

Section Ranking.
Context {number : Type}.
Implicit Types (m : MappedStock.t number) (l : list (MappedStock.t number)).

Lemma byScore_pos m a :
  (0 <? byScore m a)%Z = true <->
  MappedStock.positiveInsights m < MappedStock.positiveInsights a.
Proof. unfold byScore. rewrite Z.ltb_lt. lia. Qed.

Lemma insertSorted_perm m l : insertSorted byScore m l ≡ₚ m :: l.
Proof.
  induction l as [|a l IH]; simpl; [done|].
  destruct (0 <? byScore m a)%Z; [|done].
  rewrite IH. apply Permutation_swap.
Qed.

Lemma arraySort_perm l : arraySort byScore l ≡ₚ l.
Proof.
  induction l as [|m l IH]; simpl; [done|].
  by rewrite insertSorted_perm, IH.
Qed.

Lemma insertSorted_sorted m l :
  StronglySorted scoreGe l -> StronglySorted scoreGe (insertSorted byScore m l).
Proof.
  induction 1 as [|a l Hl IH Hall]; simpl; [repeat constructor|].
  destruct (0 <? byScore m a)%Z eqn:Hcmp.
  - apply byScore_pos in Hcmp. constructor; [done|].
    rewrite insertSorted_perm. constructor; [unfold scoreGe; lia|done].
  - assert (scoreGe m a) as Hma.
    { unfold scoreGe. destruct (byScore_pos m a) as [_ Hpos].
      destruct (decide (MappedStock.positiveInsights m
                        < MappedStock.positiveInsights a)) as [Hlt|]; [|lia].
      rewrite (Hpos Hlt) in Hcmp. discriminate. }
    constructor; [by constructor|]. constructor; [done|].
    eapply Forall_impl; [exact Hall|]. unfold scoreGe in *. intros; lia.
Qed.

Lemma arraySort_sorted l : StronglySorted scoreGe (arraySort byScore l).
Proof.
  induction l as [|m l IH]; simpl; [constructor|by apply insertSorted_sorted].
Qed.

(** Insertion never reorders two rows with the same score. *)
Lemma insertSorted_stable (k : nat) m l :
  filter (fun x => MappedStock.positiveInsights x = k) (insertSorted byScore m l)
  = filter (fun x => MappedStock.positiveInsights x = k) (m :: l).
Proof.
  induction l as [|a l IH]; simpl; [done|].
  destruct (0 <? byScore m a)%Z eqn:Hcmp; [|done].
  apply byScore_pos in Hcmp.
  rewrite (filter_cons _ a), IH, !(filter_cons _ m), (filter_cons _ a).
  repeat case_decide; try done; lia.
Qed.

Lemma arraySort_stable (k : nat) l :
  filter (fun x => MappedStock.positiveInsights x = k) (arraySort byScore l)
  = filter (fun x => MappedStock.positiveInsights x = k) l.
Proof.
  induction l as [|m l IH]; simpl; [done|].
  by rewrite insertSorted_stable, !filter_cons, IH.
Qed.

End Ranking.

(** ** The effect on the store *)

Section EffectFacts.
Context {number : Type} `{!JSNumber number}.
Implicit Types (w : AppState number) (σ : list (Array number)).

Lemma sortInPlace_alloc σ rows :
  sortInPlace (length σ) (σ ++ [RowArray rows])
  = σ ++ [RowArray (arraySort byScore rows)].
Proof.
  unfold sortInPlace.
  rewrite <-(Nat.add_0_r (length σ)) at 1. by rewrite alter_app_r.
Qed.

(** The state after a pass that reached [setMappedData]. *)
Lemma useEffect_Some insights d w w' :
  useEffect insights (Some d) w = Some w' <->
  exists stocks rows,
    readStocks (store w) d = Some stocks /\
    mapM (mappedStock insights) stocks = Some rows /\
    w' = {| store := store w ++ [RowArray (arraySort byScore rows)];
            mappedData := length (store w);
            stock := stock w |}.
Proof.
  unfold useEffect, alloc. split.
  - destruct (readStocks (store w) d) as [stocks|]; [|done]. simpl.
    destruct (mapM (mappedStock insights) stocks) as [rows|] eqn:Hrows;
      [|done]. simpl.
    rewrite sortInPlace_alloc. intros [= <-]. by exists stocks, rows.
  - intros (stocks & rows & -> & Hrows & ->). simpl. rewrite Hrows. simpl.
    by rewrite sortInPlace_alloc.
Qed.

Lemma readRows_alloc σ rows : readRows (σ ++ [RowArray rows]) (length σ) = Some rows.
Proof.
  unfold readRows.
  by rewrite lookup_app_r, Nat.sub_diag by lia.
Qed.

Lemma readStocks_lt σ d stocks : readStocks σ d = Some stocks -> d < length σ.
Proof.
  unfold readStocks. destruct (σ !! d) eqn:Hd; [|done].
  intros _. by eapply lookup_lt_Some.
Qed.

End EffectFacts.

(** C4: the rows that the pass puts on display are the rows of the stocks
    of [data], rearranged by decreasing [positiveInsights], and rows with
    the same score keep the order of their stocks in [data]; rows with the
    scores 2, 4, 1 come out as 4, 2, 1. *)
Theorem ranking_sorted_stable :
  (forall (number : Type) (N : JSNumber number) insights d
          (w w' : AppState number),
     useEffect insights (Some d) w = Some w' ->
     exists stocks rows out,
       readStocks (store w) d = Some stocks /\
       Forall2 (fun s m => mappedStock insights s = Some m) stocks rows /\
       readRows (store w') (mappedData w') = Some out /\
       out ≡ₚ rows /\
       StronglySorted scoreGe out /\
       forall k : nat,
         filter (fun x => MappedStock.positiveInsights x = k) out
         = filter (fun x => MappedStock.positiveInsights x = k) rows) /\
  (forall (number : Type) (a b c : MappedStock.t number),
     arraySort byScore [withScore a 2; withScore b 4; withScore c 1]
     = [withScore b 4; withScore a 2; withScore c 1]).
Proof.
  split; [|reflexivity].
  intros number N insights d w w' (stocks & rows & Hd & Hrows & ->)%useEffect_Some.
  exists stocks, rows, (arraySort byScore rows). simpl.
  split; [done|]. split; [by apply mapM_Some|].
  split; [apply readRows_alloc|].
  split; [apply arraySort_perm|].
  split; [apply arraySort_sorted|].
  intros k. apply arraySort_stable.
Qed.

Lemma ranking_sorted_stable_witness :
  exists w' out,
    useEffect [always true; likes "B"; likes "B"; likes "D"] (Some 0)
      (initialState [stockZ "A" [] []; stockZ "B" [] [];
                     stockZ "C" [] []; stockZ "D" [] []]) = Some w' /\
    readRows (store w') (mappedData w') = Some out /\
    MappedStock.name <$> out = [str "B"; str "D"; str "A"; str "C"] /\
    StronglySorted scoreGe out.
Proof.
  destruct (proj1 ranking_sorted_stable Z Z_number
              [always true; likes "B"; likes "B"; likes "D"] 0
              (initialState [stockZ "A" [] []; stockZ "B" [] [];
                             stockZ "C" [] []; stockZ "D" [] []])
              _ eq_refl)
    as (stocks & rows & out & _ & _ & Hout & _ & Hsorted & _).
  eexists _, out. split; [reflexivity|]. split; [exact Hout|].
  split; [|exact Hsorted].
  vm_compute in Hout. injection Hout as <-. reflexivity.
Defined.




(** Sorting through a reference does change the array behind it: a sort
    of the input array would show in the store. *)
Example sortInPlace_writes :
  sortInPlace (number:=Z) 0
    [RowArray [withScore (MappedStock.mk [] [] 0%Z [] [] [] 0) 1;
               withScore (MappedStock.mk [] [] 0%Z [] [] [] 0) 3]]
  = [RowArray [withScore (MappedStock.mk [] [] 0%Z [] [] [] 0) 3;
               withScore (MappedStock.mk [] [] 0%Z [] [] [] 0) 1]].
Proof. reflexivity. Qed.

(** ** The pass on the object store *)

Section ObjectStoreFacts.
Context {number : Type} `{!JSNumber number}.
Implicit Types (σ base : list (Obj number)).
Implicit Types (insights : list (InsightM number)).

Lemma keeps_ret {A} base (a : A) (Q : A -> Prop) :
  Q a -> keeps base (mret a) Q.
Proof. intros Ha σ Hσ. split; [done|]. by intros a' [= <-]. Qed.

Lemma keeps_bind {A B} base (m : M number A) (k : A -> M number B)
    (Q : A -> Prop) (R : B -> Prop) :
  keeps base m Q -> (forall a, Q a -> keeps base (k a) R) ->
  keeps base (m ≫= k) R.
Proof.
  intros Hm Hk σ Hσ. destruct (Hm σ Hσ) as [Hpre HQ].
  unfold mbind, M_bind. destruct (m σ) as [[a|] σ'] eqn:Hrun; simpl in *.
  - by apply (Hk a (HQ a eq_refl)).
  - by split.
Qed.

Lemma keeps_weaken {A} base (m : M number A) (Q R : A -> Prop) :
  keeps base m Q -> (forall a, Q a -> R a) -> keeps base m R.
Proof.
  intros Hm HQR σ Hσ. destruct (Hm σ Hσ) as [Hpre HQ]. split; [done|].
  intros a Ha. by apply HQR, HQ.
Qed.

(** A read writes nothing. *)
Lemma keeps_field {A} base (r : nat) (f : Obj number -> option A) :
  keeps base (field r f) (fun _ => True).
Proof. intros σ Hσ. by split. Qed.

(** A new object lies beyond the objects that were there. *)
Lemma keeps_newObj base (o : Obj number) :
  keeps base (newObj o) (fun r => length base <= r).
Proof.
  intros σ Hσ. simpl. split.
  - by apply prefix_app_r.
  - intros r [= <-]. by apply prefix_length.
Qed.

(** The sort writes to the array it is called on, and to it alone. *)
Lemma keeps_sortRows base (r : nat) :
  length base <= r -> keeps base (sortRows r) (fun r' => r' = r).
Proof.
  intros Hr σ [k ->]. unfold sortRows.
  destruct ((base ++ k) !! r) as [[]|] eqn:Hlook; simpl;
    try (split; [by apply prefix_app_r|done]).
  split; [|by intros a [= <-]].
  rewrite insert_app_r_alt by done. by apply prefix_app_r.
Qed.

Lemma keeps_mapM {A B} base (f : A -> M number B) (l : list A) :
  (forall a, keeps base (f a) (fun _ => True)) ->
  keeps base (mapM f l) (fun _ => True).
Proof.
  intros Hf. induction l as [|a l IH]; simpl.
  - by apply keeps_ret.
  - eapply keeps_bind; [apply Hf|]. intros b _.
    eapply keeps_bind; [apply IH|]. intros bs _. by apply keeps_ret.
Qed.

Lemma keeps_verifyM base (i : InsightM number) (stock : nat) :
  readOnly i -> keeps base (verifyM i stock) (fun _ => True).
Proof.
  intros Hi σ Hσ. split; [|done]. etrans; [exact Hσ|apply Hi].
Qed.

(** The callback reads the stock, its state and its arrays, and runs the
    insights: with insights that only read, it writes to no object. *)
Lemma keeps_mappedStockM base insights (stock : nat) :
  Forall readOnly insights ->
  keeps base (mappedStockM insights stock) (fun _ => True).
Proof.
  intros Hins. unfold mappedStockM.
  eapply keeps_bind; [apply keeps_field|]. intros currentState _.
  eapply keeps_bind; [apply keeps_field|]. intros holders _.
  eapply keeps_bind; [apply keeps_field|]. intros hs _. simpl.
  eapply keeps_bind; [apply keeps_field|]. intros events _.
  eapply keeps_bind; [apply keeps_field|]. intros es _. simpl.
  eapply keeps_bind.
  { clear -Hins. induction Hins as [|i insights Hi _ IH]; simpl.
    - by apply (keeps_ret base [] (fun _ => True)).
    - eapply keeps_bind; [by apply keeps_verifyM|]. intros b _.
      eapply keeps_bind; [apply IH|]. intros bs _. by apply keeps_ret. }
  intros vs _. simpl.
  eapply keeps_bind; [apply keeps_field|]. intros name _.
  eapply keeps_bind; [apply keeps_field|]. intros business _.
  eapply keeps_bind; [apply keeps_field|]. intros price _.
  by apply keeps_ret.
Qed.

Lemma keeps_passM base insights (data : nat) :
  Forall readOnly insights ->
  keeps base (passM insights data) (fun r => length base <= r).
Proof.
  intros Hins. unfold passM.
  eapply keeps_bind; [apply keeps_field|]. intros stocks _.
  eapply keeps_bind.
  { apply keeps_mapM. intros stock. by apply keeps_mappedStockM. }
  intros rows _.
  eapply keeps_bind; [apply keeps_newObj|]. intros mappedData Hfresh.
  eapply keeps_weaken; [by apply keeps_sortRows|]. by intros r ->.
Qed.

(** An insight that is a function of the value of the stock only reads. *)
Lemma ofPure_readOnly (i : Insight number) : readOnly (ofPure i).
Proof. intros stock σ. done. Qed.

End ObjectStoreFacts.

Section ObjectStoreRefinement.
Context {number : Type} `{!JSNumber number}.
Implicit Types (σ : list (Obj number)) (insights : list (Insight number)).

Lemma M_bind_run {A B} (m : M number A) (k : A -> M number B) σ :
  (m ≫= k) σ
  = match m σ with
    | (Some a, σ') => k a σ'
    | (None, σ') => (None, σ')
    end.
Proof. reflexivity. Qed.

Lemma verdictsM_ofPure insights (stock : nat) σ (s : Stock.t number) :
  loadStock σ stock = Some s ->
  mapM (fun i => verifyM i stock) (ofPure <$> insights) σ
  = (verdicts insights s, σ).
Proof.
  intros Hs. unfold verdicts.
  induction insights as [|i insights IH]; simpl; [done|].
  rewrite M_bind_run. simpl. rewrite Hs. simpl.
  destruct (verify i s) as [b|]; simpl; [|done].
  change (list_fmap _ _ ofPure insights) with (ofPure <$> insights).
  rewrite M_bind_run. rewrite IH.
  by destruct (mapM (fun i => verify i s) insights).
Qed.

(** On a stock object that loads as the value [s], the callback written
    access by access answers what the callback on values answers, and
    leaves the store as it is. *)
Lemma mappedStockM_ofPure insights (stock : nat) σ (s : Stock.t number) :
  loadStock σ stock = Some s ->
  mappedStockM (ofPure <$> insights) stock σ = (mappedStock insights s, σ).
Proof.
  intros Hs. pose proof Hs as Hload. unfold loadStock in Hload.
  destruct (σ !! stock) as [[| | | |name business cs ev hi| |]|] eqn:Hstock;
    simpl in Hload; try done.
  destruct (σ !! ev ≫= eventsElems) as [es|] eqn:Hev; simpl in Hload;
    [|done].
  destruct (σ !! hi ≫= historyElems) as [hs|] eqn:Hhi; simpl in Hload;
    [|done].
  unfold mappedStockM, mappedStock, field.
  rewrite M_bind_run. rewrite Hstock. simpl.
  destruct cs as [c|]; simpl in *; [|by injection Hload as <-].
  unfold loadState in Hload.
  destruct (σ !! c) as [[| | |price pe holders| | |]|] eqn:Hc;
    simpl in Hload; try done.
  destruct (σ !! holders ≫= holdersElems) as [l|] eqn:Hholders;
    simpl in Hload; [|done].
  injection Hload as <-. simpl.
  repeat (rewrite M_bind_run; simpl;
          rewrite ?Hstock, ?Hc, ?Hholders, ?Hev; simpl).
  change (list_fmap _ _ ofPure insights) with (ofPure <$> insights).
  rewrite (verdictsM_ofPure insights stock σ _ Hs). simpl.
  destruct (verdicts insights _) as [vs|] eqn:Hvs; simpl; [|done].
  repeat (rewrite M_bind_run; simpl;
          rewrite ?Hstock, ?Hc; simpl).
  by rewrite length_fmap.
Qed.

Lemma rowsM_ofPure insights (refs : list nat) σ
    (stocks : list (Stock.t number)) :
  Forall2 (fun r s => loadStock σ r = Some s) refs stocks ->
  mapM (mappedStockM (ofPure <$> insights)) refs σ
  = (mapM (mappedStock insights) stocks, σ).
Proof.
  induction 1 as [|r s refs stocks Hs _ IH]; simpl; [done|].
  rewrite M_bind_run. rewrite (mappedStockM_ofPure _ _ _ _ Hs).
  destruct (mappedStock insights s) as [row|]; simpl; [|done].
  rewrite M_bind_run. rewrite IH.
  by destruct (mapM (mappedStock insights) stocks).
Qed.

(** The pass on objects computes the rows of the pass on values: when the
    stocks behind [data] load as the values [stocks], it rejects where
    that one rejects, and otherwise leaves the same sorted rows in a new
    array at the end of the store. *)
Lemma passM_ofPure insights (data : nat) σ (refs : list nat)
    (stocks : list (Stock.t number)) :
  σ !! data ≫= dataElems = Some refs ->
  Forall2 (fun r s => loadStock σ r = Some s) refs stocks ->
  passM (ofPure <$> insights) data σ
  = match mapM (mappedStock insights) stocks with
    | Some rows =>
        (Some (length σ), σ ++ [RowsObj (arraySort byScore rows)])
    | None => (None, σ)
    end.
Proof.
  intros Hdata Hstocks. unfold passM, field.
  rewrite M_bind_run. rewrite Hdata.
  rewrite M_bind_run. rewrite (rowsM_ofPure _ _ _ _ Hstocks).
  destruct (mapM (mappedStock insights) stocks) as [rows|]; [|done].
  rewrite M_bind_run. unfold newObj, sortRows.
  rewrite lookup_app_r, Nat.sub_diag by done. simpl.
  rewrite insert_app_r_alt, Nat.sub_diag by done. done.
Qed.

End ObjectStoreRefinement.

(** An insight that writes is told apart: [clearsEvents] is not read-only,
    and a pass with it leaves the first stock without events. *)
Example clearsEvents_writes :
  ~ readOnly clearsEvents /\
  (passM [clearsEvents] 10 storeZ).2 !! 2 = Some (EventsObj []).
Proof.
  split; [|reflexivity]. intros Hro.
  destruct (Hro 4 storeZ) as [k Hk]. vm_compute in Hk. discriminate Hk.
Qed.

(** C8: a pass leaves its inputs as they are.  Run on any store, with
    insights that only read, the pass writes to no object that existed
    when it started, whether it ends with a result or rejects halfway: the
    array [data], every stock, its state and its arrays of holders, events
    and history are afterwards what they were.  The only write of the
    pass, the sort, goes to the array of rows, which the pass has created.
    Insights that are functions of the value of the stock only read. *)
Theorem pass_leaves_inputs_unchanged (number : Type) (N : JSNumber number)
    (insights : list (InsightM number)) (data : nat)
    (σ : list (Obj number)) :
  Forall readOnly insights ->
  (forall r o, σ !! r = Some o -> (passM insights data σ).2 !! r = Some o) /\
  (forall mappedData,
     (passM insights data σ).1 = Some mappedData ->
     length σ <= mappedData /\
     exists rows,
       (passM insights data σ).2 !! mappedData = Some (RowsObj rows) /\
       StronglySorted scoreGe rows) /\
  (forall pure : list (Insight number), Forall readOnly (ofPure <$> pure)).
Proof.
  intros Hins.
  destruct (keeps_passM σ insights data Hins σ) as [Hpre Hfresh]; [done|].
  split; [|split].
  - intros r o Hr. by eapply prefix_lookup_Some.
  - intros mappedData Hres. split; [by apply Hfresh|].
    clear Hpre Hfresh.
    destruct (passM insights data σ) as [res σ'] eqn:Hrun.
    simpl in *. subst res.
    unfold passM in Hrun. rewrite M_bind_run in Hrun.
    destruct (field data dataElems σ) as [[stocks|] σ1]; [|done].
    rewrite M_bind_run in Hrun.
    destruct (mapM (mappedStockM insights) stocks σ1) as [[rows|] σ2];
      [|done].
    rewrite M_bind_run in Hrun. unfold newObj, sortRows in Hrun.
    rewrite lookup_app_r, Nat.sub_diag in Hrun by done. simpl in Hrun.
    injection Hrun as <- <-. exists (arraySort byScore rows).
    split; [|apply arraySort_sorted].
    rewrite insert_app_r_alt, Nat.sub_diag by done. simpl.
    by rewrite lookup_app_r, Nat.sub_diag by done.
  - intros pure. apply Forall_fmap, Forall_forall. intros i _.
    apply ofPure_readOnly.
Qed.

Lemma pass_leaves_inputs_unchanged_witness :
  Forall readOnly [ofPure (always true); ofPure (likes "PETR4")] /\
  (passM [ofPure (always true); ofPure (likes "PETR4")] 10 storeZ).1
  = Some 11 /\
  (forall r o, storeZ !! r = Some o ->
     (passM [ofPure (always true); ofPure (likes "PETR4")] 10 storeZ).2 !! r
     = Some o) /\
  exists rows : list (MappedStock.t Z),
    (passM [ofPure (always true); ofPure (likes "PETR4")] 10 storeZ).2 !! 11
    = Some (RowsObj rows) /\
    MappedStock.name <$> rows = [str "PETR4"; str "B3 SA"].
Proof.
  assert (Forall readOnly [ofPure (always true); ofPure (likes "PETR4")])
    as Hins.
  { repeat constructor; apply ofPure_readOnly. }
  split; [exact Hins|]. split; [reflexivity|]. split.
  - apply (pass_leaves_inputs_unchanged Z Z_number
             [ofPure (always true); ofPure (likes "PETR4")] 10 storeZ Hins).
  - eexists. split; reflexivity.
Defined.

(** ** The name of a row and the row click *)

Lemma removeSpecial_length (name : jsstring) :
  Exists (fun c => special c = true) name ->
  length (removeSpecial name) < length name.
Proof.
  unfold removeSpecial.
  induction 1 as [c name Hc|c name _ IH]; simpl.
  - rewrite Hc. simpl.
    pose proof (List.filter_length_le (fun c => negb (special c)) name). lia.
  - destruct (negb (special c)); simpl; lia.
Qed.

(** C9: a stock whose name has a character outside [\w] and [\s] gets a
    row under another name, the name without those characters; and when no
    stock of [data] bears that other name, a click on the row finds no
    stock and leaves the state, the closed detail view included, as it is. *)
Theorem sanitized_name_breaks_row_click (number : Type) (N : JSNumber number)
    (insights : list (Insight number)) (s : Stock.t number)
    (m : MappedStock.t number) :
  Exists (fun c => special c = true) (Stock.name s) ->
  mappedStock insights s = Some m ->
  MappedStock.name m = removeSpecial (Stock.name s) /\
  MappedStock.name m <> Stock.name s /\
  forall (d : nat) (w : AppState number) stocks,
    readStocks (store w) d = Some stocks ->
    Forall (fun s' => Stock.name s' <> MappedStock.name m) stocks ->
    onRowClick d m w = Some w.
Proof.
  intros Hspecial (st & vs & _ & _ & ->)%mappedStock_Some. simpl.
  split; [done|]. split.
  - intros Heq. apply removeSpecial_length in Hspecial.
    rewrite Heq in Hspecial. lia.
  - intros d w stocks Hd Hall. unfold onRowClick. rewrite Hd. simpl.
    destruct (List.find _ stocks) as [s'|] eqn:Hfind; [|done].
    apply List.find_some in Hfind as [Hin Hname].
    apply bool_decide_eq_true in Hname.
    rewrite Forall_forall in Hall. apply list_elem_of_In in Hin.
    by destruct (Hall s' Hin).
Qed.

Lemma sanitized_name_breaks_row_click_witness :
  Exists (fun c => special c = true) (str "PETR-4") /\
  exists m,
    mappedStock [always true] (stockZ "PETR-4" [] []) = Some m /\
    MappedStock.name m = str "PETR4" /\
    onRowClick 0 m (initialState [stockZ "PETR-4" [] []; stockZ "VALE3" [] []])
    = Some (initialState [stockZ "PETR-4" [] []; stockZ "VALE3" [] []]).
Proof.
  assert (Exists (fun c => special c = true) (str "PETR-4")) as Hspecial.
  { do 4 apply Exists_cons_tl. apply Exists_cons_hd. reflexivity. }
  split; [exact Hspecial|].
  eexists. split; [reflexivity|]. split; [reflexivity|].
  destruct (sanitized_name_breaks_row_click Z Z_number [always true]
              (stockZ "PETR-4" [] []) _ Hspecial eq_refl) as (_ & _ & Hclick).
  apply (Hclick 0
           (initialState [stockZ "PETR-4" [] []; stockZ "VALE3" [] []])
           [stockZ "PETR-4" [] []; stockZ "VALE3" [] []] eq_refl).
  repeat constructor; discriminate.
Defined.

(** * Further properties of the page *)

(** ** Row names *)

Lemma removeSpecial_no_special (name : jsstring) :
  Forall (fun c => special c = false) (removeSpecial name).
Proof.
  unfold removeSpecial. induction name as [|c name IH]; simpl; [done|].
  destruct (special c) eqn:Hc; simpl; [done|by constructor].
Qed.

Lemma removeSpecial_id (name : jsstring) :
  Forall (fun c => special c = false) name -> removeSpecial name = name.
Proof.
  unfold removeSpecial. induction 1 as [|c name Hc _ IH]; simpl; [done|].
  rewrite Hc. simpl. by rewrite IH.
Qed.

(** X1: the name of a row holds word and white space characters only, and
    cleaning a cleaned name changes nothing. *)
Theorem removeSpecial_clean (name : jsstring) :
  Forall (fun c => special c = false) (removeSpecial name) /\
  removeSpecial (removeSpecial name) = removeSpecial name.
Proof.
  split; [apply removeSpecial_no_special|].
  apply removeSpecial_id, removeSpecial_no_special.
Qed.

(** X2: a name goes through unchanged exactly when it has no character
    outside [\w] and [\s]; otherwise the row name is strictly shorter. *)
Theorem removeSpecial_fixed_iff (name : jsstring) :
  (removeSpecial name = name <-> Forall (fun c => special c = false) name) /\
  (removeSpecial name <> name -> length (removeSpecial name) < length name).
Proof.
  assert (removeSpecial name = name <->
          Forall (fun c => special c = false) name) as Hiff.
  { split.
    - intros <-. apply removeSpecial_no_special.
    - apply removeSpecial_id. }
  split; [exact Hiff|]. intros Hne. apply removeSpecial_length.
  rewrite Hiff in Hne. apply not_Forall_Exists in Hne; [|apply _].
  eapply Exists_impl; [exact Hne|]. simpl. intros c Hc.
  by destruct (special c).
Qed.

Lemma removeSpecial_fixed_iff_witness :
  removeSpecial (str "ITUB 4_x") = str "ITUB 4_x" /\
  length (removeSpecial (str "B3 S.A.")) < length (str "B3 S.A.").
Proof.
  split.
  - apply (proj1 (removeSpecial_fixed_iff (str "ITUB 4_x"))).
    repeat constructor.
  - apply (proj2 (removeSpecial_fixed_iff (str "B3 S.A."))). discriminate.
Defined.

(** ** The row click *)

Section RowClick.
Context {number : Type} `{!JSNumber number}.
Implicit Types (w : AppState number) (s : Stock.t number).
Implicit Types (row : MappedStock.t number).

(** [Array.prototype.find] answers the first element that passes, or
    nothing when none does. *)
Lemma find_first {A} (f : A -> bool) (l : list A) :
  (List.find f l = None /\ Forall (fun x => f x = false) l) \/
  (exists i x, l !! i = Some x /\ f x = true /\
     (forall j y, j < i -> l !! j = Some y -> f y = false) /\
     List.find f l = Some x).
Proof.
  induction l as [|a l IH]; simpl; [left; by split|].
  destruct (f a) eqn:Ha.
  - right. exists 0, a. repeat split; [done|]. intros; lia.
  - destruct IH as [[-> Hall]|(i & x & Hi & Hx & Hbefore & ->)].
    + left. split; [done|by constructor].
    + right. exists (S i), x. repeat split; [done..|].
      intros [|j] y Hlt Hj; simplify_eq/=; [done|].
      eapply Hbefore; [|done]. lia.
Qed.

(** What a click does, given the stocks behind [d]. *)
Lemma onRowClick_cases d row w (stocks : list (Stock.t number)) :
  readStocks (store w) d = Some stocks ->
  (Forall (fun s => Stock.name s <> MappedStock.name row) stocks /\
   onRowClick d row w = Some w) \/
  (exists i s w',
     stocks !! i = Some s /\ Stock.name s = MappedStock.name row /\
     (forall j s', j < i -> stocks !! j = Some s' ->
        Stock.name s' <> MappedStock.name row) /\
     onRowClick d row w = Some w' /\
     stock w' = Some s /\ store w' = store w /\
     mappedData w' = mappedData w /\
     closed w' = false /\ insightsTitle w' = MappedStock.name row).
Proof.
  intros Hd. unfold onRowClick. rewrite Hd. simpl.
  destruct (find_first
              (fun s => bool_decide (Stock.name s = MappedStock.name row))
              stocks) as [[-> Hall]|(i & s & Hi & Hs & Hbefore & ->)].
  - left. split; [|done]. eapply Forall_impl; [exact Hall|].
    intros s Hs. by apply bool_decide_eq_false in Hs.
  - right. apply bool_decide_eq_true in Hs. eexists i, s, _.
    repeat split; [done..| |]; [|by unfold insightsTitle; simpl].
    intros j s' Hlt Hj. pose proof (Hbefore j s' Hlt Hj) as Hf.
    by apply bool_decide_eq_false in Hf.
Qed.

End RowClick.

(** X3: a click on a row either finds no stock of [data] with the name of
    the row and changes nothing, or opens the detail view on the first
    stock of [data] with that name; the title of the panel is then the name
    of the row, and the arrays of the store are as they were. *)
Theorem row_click_first_match (number : Type) (N : JSNumber number)
    (d : nat) (row : MappedStock.t number) (w : AppState number)
    (stocks : list (Stock.t number)) :
  readStocks (store w) d = Some stocks ->
  (Forall (fun s => Stock.name s <> MappedStock.name row) stocks /\
   onRowClick d row w = Some w) \/
  (exists i s w',
     stocks !! i = Some s /\ Stock.name s = MappedStock.name row /\
     (forall j s', j < i -> stocks !! j = Some s' ->
        Stock.name s' <> MappedStock.name row) /\
     onRowClick d row w = Some w' /\
     stock w' = Some s /\ store w' = store w /\
     mappedData w' = mappedData w /\
     closed w' = false /\ insightsTitle w' = MappedStock.name row).
Proof. apply onRowClick_cases. Qed.

Lemma row_click_first_match_witness :
  exists w',
    onRowClick 0 (MappedStock.mk (str "VALE3") [] 0%Z [] [] [] 0)
      (initialState [stockZ "PETR4" [] []; stockZ "VALE3" [holderZ "A" 1] [];
                     stockZ "VALE3" [] []]) = Some w' /\
    stock w' = Some (stockZ "VALE3" [holderZ "A" 1] []) /\
    insightsTitle w' = str "VALE3".
Proof.
  destruct (row_click_first_match Z Z_number 0
              (MappedStock.mk (str "VALE3") [] 0%Z [] [] [] 0)
              (initialState [stockZ "PETR4" [] [];
                             stockZ "VALE3" [holderZ "A" 1] [];
                             stockZ "VALE3" [] []])
              _ eq_refl)
    as [[_ Hnone]|(i & s & w' & Hi & _ & _ & Hclick & Hs & _ & _ & _ & Ht)].
  - vm_compute in Hnone. discriminate Hnone.
  - exists w'. split; [exact Hclick|].
    vm_compute in Hclick. injection Hclick as <-.
    split; [reflexivity|exact Ht].
Defined.

(** X4: the click on the row of a stock brings that very stock into the
    detail view, provided its name has no character outside [\w] and [\s]
    and no stock earlier in [data] has the same name. *)
Theorem row_click_opens_its_stock (number : Type) (N : JSNumber number)
    (insights : list (Insight number)) (d : nat) (w : AppState number)
    (stocks : list (Stock.t number)) (i : nat) (s : Stock.t number)
    (row : MappedStock.t number) :
  readStocks (store w) d = Some stocks ->
  stocks !! i = Some s ->
  Forall (fun c => special c = false) (Stock.name s) ->
  (forall j s', j < i -> stocks !! j = Some s' ->
     Stock.name s' <> Stock.name s) ->
  mappedStock insights s = Some row ->
  onRowClick d row w
  = Some {| store := store w; mappedData := mappedData w; stock := Some s |}.
Proof.
  intros Hd Hi Hclean Hfirst (st & vs & _ & _ & ->)%mappedStock_Some.
  apply removeSpecial_id in Hclean.
  unfold onRowClick. rewrite Hd. simpl. rewrite Hclean.
  destruct (find_first
              (fun s' => bool_decide (Stock.name s' = Stock.name s))
              stocks) as [[_ Hall]|(k & x & Hk & Hx & Hbefore & ->)].
  - rewrite Forall_forall in Hall.
    assert (s ∈ stocks) as Hin by (by eapply list_elem_of_lookup_2).
    apply Hall in Hin. by apply bool_decide_eq_false in Hin.
  - apply bool_decide_eq_true in Hx.
    destruct (Nat.lt_trichotomy k i) as [Hlt|[->|Hgt]].
    + by destruct (Hfirst k x Hlt Hk).
    + by simplify_eq.
    + specialize (Hbefore i s Hgt Hi).
      by apply bool_decide_eq_false in Hbefore.
Qed.

Lemma row_click_opens_its_stock_witness :
  exists row,
    mappedStock [always true] (stockZ "VALE3" [] []) = Some row /\
    onRowClick 0 row (initialState [stockZ "PETR4" [] []; stockZ "VALE3" [] []])
    = Some {| store := [StockArray [stockZ "PETR4" [] []; stockZ "VALE3" [] []];
                        RowArray []];
              mappedData := 1;
              stock := Some (stockZ "VALE3" [] []) |}.
Proof.
  eexists. split; [reflexivity|].
  apply (row_click_opens_its_stock Z Z_number [always true] 0
           (initialState [stockZ "PETR4" [] []; stockZ "VALE3" [] []])
           [stockZ "PETR4" [] []; stockZ "VALE3" [] []] 1
           (stockZ "VALE3" [] []) _ eq_refl eq_refl).
  - repeat constructor.
  - intros [|j] s' Hlt Hj; [|lia]. injection Hj as <-. discriminate.
  - reflexivity.
Defined.

(** X5: the click on the row of a stock with a character outside [\w]
    and [\s] in its name never opens that stock: if it changes the detail
    view at all, the view shows another stock, one that bears the cleaned
    name. *)
Theorem row_click_opens_namesake (number : Type) (N : JSNumber number)
    (insights : list (Insight number)) (d : nat) (w w' : AppState number)
    (s : Stock.t number) (row : MappedStock.t number) :
  Exists (fun c => special c = true) (Stock.name s) ->
  mappedStock insights s = Some row ->
  onRowClick d row w = Some w' ->
  w' = w \/
  exists s', stock w' = Some s' /\ s' <> s /\
             Stock.name s' = removeSpecial (Stock.name s).
Proof.
  intros Hspecial Hrow Hclick.
  destruct (readStocks (store w) d) as [stocks|] eqn:Hd;
    [|by unfold onRowClick in Hclick; rewrite Hd in Hclick].
  assert (MappedStock.name row = removeSpecial (Stock.name s)) as Hname.
  { by apply mappedStock_Some in Hrow as (st & vs & _ & _ & ->). }
  assert (removeSpecial (Stock.name s) <> Stock.name s) as Hne.
  { intros Heq. apply removeSpecial_length in Hspecial.
    rewrite Heq in Hspecial. lia. }
  destruct (onRowClick_cases d row w stocks Hd)
    as [[_ Hsame]|(i & s' & w'' & _ & Hs' & _ & Hclick' & Hst & _)].
  - left. congruence.
  - right. exists s'. rewrite Hclick in Hclick'. injection Hclick' as <-.
    split; [done|]. split; [|congruence]. intros ->. congruence.
Qed.

Lemma row_click_opens_namesake_witness :
  exists row w',
    mappedStock [always true] (stockZ "AB-C" [] []) = Some row /\
    onRowClick 0 row (initialState [stockZ "AB-C" [] []; stockZ "ABC" [] []])
    = Some w' /\
    stock w' = Some (stockZ "ABC" [] []).
Proof.
  assert (Exists (fun c => special c = true) (str "AB-C")) as Hspecial.
  { do 2 apply Exists_cons_tl. apply Exists_cons_hd. reflexivity. }
  eexists _, _. split; [reflexivity|]. split; [reflexivity|].
  destruct (row_click_opens_namesake Z Z_number [always true] 0
              (initialState [stockZ "AB-C" [] []; stockZ "ABC" [] []]) _
              (stockZ "AB-C" [] []) _ Hspecial eq_refl eq_refl)
    as [Hsame|(s' & Hs' & _)].
  - discriminate Hsame.
  - reflexivity.
Defined.

(** ** More on the ranking *)

Section RankingMore.
Context {number : Type}.
Implicit Types (m : MappedStock.t number) (l : list (MappedStock.t number)).

Lemma arraySort_of_sorted l :
  StronglySorted scoreGe l -> arraySort byScore l = l.
Proof.
  induction 1 as [|a l Hl IH Hall]; simpl; [done|]. rewrite IH.
  destruct Hall as [|b l Hab _]; simpl; [done|].
  destruct (0 <? byScore a b)%Z eqn:Hcmp; [|done].
  apply byScore_pos in Hcmp. unfold scoreGe in Hab. lia.
Qed.

(** Two descending arrangements with the same rows of each score, in the
    same order, are the same arrangement. *)
Lemma sorted_by_score_unique l1 : forall l2,
  StronglySorted scoreGe l1 -> StronglySorted scoreGe l2 ->
  (forall k : nat,
     filter (fun x => MappedStock.positiveInsights x = k) l1
     = filter (fun x => MappedStock.positiveInsights x = k) l2) ->
  l1 = l2.
Proof.
  induction l1 as [|a t1 IH]; intros l2 Hs1 Hs2 Hf.
  - destruct l2 as [|b t2]; [done|].
    specialize (Hf (MappedStock.positiveInsights b)).
    by rewrite filter_nil, filter_cons_True in Hf.
  - destruct l2 as [|b t2].
    { specialize (Hf (MappedStock.positiveInsights a)).
      by rewrite filter_nil, filter_cons_True in Hf. }
    apply StronglySorted_inv in Hs1 as [Hs1 Ha].
    apply StronglySorted_inv in Hs2 as [Hs2 Hb].
    rewrite Forall_forall in Ha, Hb.
    assert (MappedStock.positiveInsights a <= MappedStock.positiveInsights b)
      as Hab.
    { assert (a ∈ b :: t2) as [->|Hin]%elem_of_cons; [|done|by apply Hb].
      eapply (list_elem_of_filter
                (fun x => MappedStock.positiveInsights x
                          = MappedStock.positiveInsights a)).
      rewrite <-Hf, filter_cons_True by done. left. }
    assert (MappedStock.positiveInsights b <= MappedStock.positiveInsights a)
      as Hba.
    { assert (b ∈ a :: t1) as [->|Hin]%elem_of_cons; [|done|by apply Ha].
      eapply (list_elem_of_filter
                (fun x => MappedStock.positiveInsights x
                          = MappedStock.positiveInsights b)).
      rewrite Hf, filter_cons_True by done. left. }
    pose proof (Hf (MappedStock.positiveInsights a)) as Hhead.
    rewrite !filter_cons_True in Hhead by lia.
    injection Hhead as -> Htail. f_equal. apply IH; [done..|].
    intros k. destruct (decide (MappedStock.positiveInsights b = k)) as [<-|Hk].
    + done.
    + specialize (Hf k). by rewrite !filter_cons_False in Hf.
Qed.

(** A list whose filter starts with [a] has [a] as the first element that
    passes. *)
Lemma filter_head_split (P : MappedStock.t number -> Prop)
    `{!forall x, Decision (P x)} l a r :
  filter P l = a :: r ->
  exists pre post, l = pre ++ a :: post /\ Forall (fun x => ~ P x) pre.
Proof.
  induction l as [|b l IH]; [done|].
  destruct (decide (P b)) as [Hb|Hb].
  - rewrite filter_cons_True by done. intros [= -> _].
    by exists [], l.
  - rewrite filter_cons_False by done.
    intros (pre & post & -> & Hpre)%IH.
    exists (b :: pre), post. split; [done|by constructor].
Qed.

End RankingMore.

(** X6: the ranking is settled by the scores alone.  Whatever arrangement
    of the rows is descending in [positiveInsights] and keeps the rows of
    each score in the order they had is the arrangement on display: the
    outcome does not depend on how the engine sorts. *)
Theorem stable_ranking_unique (number : Type)
    (rows out : list (MappedStock.t number)) :
  StronglySorted scoreGe out ->
  (forall k : nat,
     filter (fun x => MappedStock.positiveInsights x = k) out
     = filter (fun x => MappedStock.positiveInsights x = k) rows) ->
  out = arraySort byScore rows.
Proof.
  intros Hsorted Hstable.
  apply sorted_by_score_unique; [done|apply arraySort_sorted|].
  intros k. by rewrite arraySort_stable.
Qed.

Lemma stable_ranking_unique_witness :
  [rowZ "B" 4; rowZ "A" 2; rowZ "C" 2]
  = arraySort byScore [rowZ "A" 2; rowZ "B" 4; rowZ "C" 2].
Proof.
  apply (stable_ranking_unique Z
           [rowZ "A" 2; rowZ "B" 4; rowZ "C" 2]
           [rowZ "B" 4; rowZ "A" 2; rowZ "C" 2]).
  - repeat constructor; unfold scoreGe; simpl; lia.
  - intros k. rewrite !filter_cons, !filter_nil. simpl.
    repeat case_decide; try done; lia.
Defined.

(** X7: rows that arrive in descending order of [positiveInsights], all
    tied for instance, are displayed in the order they arrived; sorting a
    sorted array again changes nothing. *)
Theorem ranking_keeps_ranked_rows (number : Type)
    (rows : list (MappedStock.t number)) :
  (StronglySorted scoreGe rows -> arraySort byScore rows = rows) /\
  arraySort byScore (arraySort byScore rows) = arraySort byScore rows.
Proof.
  split; [apply arraySort_of_sorted|].
  apply arraySort_of_sorted, arraySort_sorted.
Qed.

Lemma ranking_keeps_ranked_rows_witness :
  arraySort byScore [rowZ "A" 3; rowZ "B" 3; rowZ "C" 1]
  = [rowZ "A" 3; rowZ "B" 3; rowZ "C" 1].
Proof.
  apply (proj1 (ranking_keeps_ranked_rows Z
                  [rowZ "A" 3; rowZ "B" 3; rowZ "C" 1])).
  repeat constructor; unfold scoreGe; simpl; lia.
Defined.

(** X8: the first row on display is the best one: no row has a higher
    [positiveInsights], and every row that came before it in the unsorted
    array has a strictly lower one. *)
Theorem ranking_head_is_first_best (number : Type)
    (rows : list (MappedStock.t number)) :
  rows <> [] ->
  exists top rest pre post,
    arraySort byScore rows = top :: rest /\
    rows = pre ++ top :: post /\
    Forall (fun m => MappedStock.positiveInsights m
                     < MappedStock.positiveInsights top) pre /\
    Forall (fun m => MappedStock.positiveInsights m
                     <= MappedStock.positiveInsights top) post.
Proof.
  intros Hne.
  pose proof (arraySort_perm rows) as Hperm.
  pose proof (arraySort_sorted rows) as Hsorted.
  destruct (arraySort byScore rows) as [|top rest] eqn:Hout.
  { by apply Permutation_nil in Hperm. }
  apply StronglySorted_inv in Hsorted as [_ Hrest].
  assert (forall m, m ∈ rows ->
            MappedStock.positiveInsights m
            <= MappedStock.positiveInsights top) as Hle.
  { intros m Hm. rewrite <-Hperm in Hm.
    apply elem_of_cons in Hm as [->|Hm]; [done|].
    rewrite Forall_forall in Hrest. by apply Hrest. }
  pose proof (arraySort_stable (MappedStock.positiveInsights top) rows)
    as Hstable.
  rewrite Hout, filter_cons_True in Hstable by done. symmetry in Hstable.
  apply filter_head_split in Hstable as (pre & post & -> & Hpre).
  exists top, rest, pre, post. repeat split.
  - apply Forall_forall. intros m Hm. rewrite Forall_forall in Hpre.
    specialize (Hpre m Hm). specialize (Hle m). rewrite elem_of_app in Hle.
    specialize (Hle (or_introl Hm)). lia.
  - apply Forall_forall. intros m Hm. apply Hle.
    rewrite elem_of_app, elem_of_cons. auto.
Qed.

Lemma ranking_head_is_first_best_witness :
  [rowZ "A" 2; rowZ "B" 4; rowZ "C" 4] <> [] /\
  exists top rest pre post,
    arraySort byScore [rowZ "A" 2; rowZ "B" 4; rowZ "C" 4] = top :: rest /\
    [rowZ "A" 2; rowZ "B" 4; rowZ "C" 4] = pre ++ top :: post /\
    Forall (fun m => MappedStock.positiveInsights m
                     < MappedStock.positiveInsights top) pre /\
    Forall (fun m => MappedStock.positiveInsights m
                     <= MappedStock.positiveInsights top) post.
Proof.
  split; [discriminate|].
  apply (ranking_head_is_first_best Z [rowZ "A" 2; rowZ "B" 4; rowZ "C" 4]).
  discriminate.
Defined.

(** ** More on the main holder *)

Section MainHolderMore.
Context {number : Type} `{!JSNumber number}.
Implicit Types (h : Holder.t number) (hs : list (Holder.t number)).
Implicit Types (acc : Acc.t number).

Lemma pickHolder_not_below_zero acc h :
  ltb (Acc.totalShares acc) zero = false ->
  ltb (Acc.totalShares (pickHolder acc h)) zero = false.
Proof.
  intros Hacc. unfold pickHolder.
  destruct (ltb (Acc.totalShares acc) (Holder.totalShares h)) eqn:Hlt;
    [|done]. simpl.
  destruct (ltb (Holder.totalShares h) zero) eqn:Hh; [|done].
  by rewrite (ltb_trans _ _ _ Hlt Hh) in Hacc.
Qed.

Lemma fold_pickHolder_not_below_zero hs : forall acc,
  ltb (Acc.totalShares acc) zero = false ->
  ltb (Acc.totalShares (fold_left pickHolder hs acc)) zero = false.
Proof.
  induction hs as [|h hs IH]; intros acc Hacc; simpl; [done|].
  by apply IH, pickHolder_not_below_zero.
Qed.

Lemma fold_pickHolder_filter hs : forall acc,
  ltb (Acc.totalShares acc) zero = false ->
  fold_left pickHolder
    (filter (fun h => ltb zero (Holder.totalShares h) = true) hs) acc
  = fold_left pickHolder hs acc.
Proof.
  induction hs as [|h hs IH]; intros acc Hacc; [done|].
  destruct (ltb zero (Holder.totalShares h)) eqn:Hpos.
  - rewrite filter_cons_True by done. simpl.
    by apply IH, pickHolder_not_below_zero.
  - rewrite filter_cons_False by congruence. simpl.
    assert (pickHolder acc h = acc) as ->; [|by apply IH].
    unfold pickHolder.
    destruct (ltb (Acc.totalShares acc) (Holder.totalShares h)) eqn:Hlt;
      [|done].
    destruct (ltb_cotrans _ zero _ Hlt); congruence.
Qed.

End MainHolderMore.

(** X9: the share shown for the main holder is never below 0, whatever
    the shares of the holders are. *)
Theorem main_holder_share_not_negative (number : Type) (N : JSNumber number)
    (hs : list (Holder.t number)) :
  ltb (Acc.totalShares (mainHolder hs)) zero = false.
Proof.
  apply (fold_pickHolder_not_below_zero hs noHolder), ltb_irrefl.
Qed.

(** X10: holders without a share above 0 play no part: leaving them out
    of the list gives the same main holder. *)
Theorem main_holder_ignores_empty_holders (number : Type)
    (N : JSNumber number) (hs : list (Holder.t number)) :
  mainHolder (filter (fun h => ltb zero (Holder.totalShares h) = true) hs)
  = mainHolder hs.
Proof. apply (fold_pickHolder_filter hs noHolder), ltb_irrefl. Qed.

(** X11: the order of the holders decides the name on a tie only: two
    lists with the same holders in any order give main holders with the
    same share (neither is below the other; on integers, equal). *)
Theorem main_holder_share_order_free :
  (forall (number : Type) (N : JSNumber number)
          (hs hs' : list (Holder.t number)),
     hs ≡ₚ hs' ->
     ltb (Acc.totalShares (mainHolder hs))
         (Acc.totalShares (mainHolder hs')) = false) /\
  (forall hs hs' : list (Holder.t Z),
     hs ≡ₚ hs' ->
     Acc.totalShares (mainHolder hs) = Acc.totalShares (mainHolder hs')).
Proof.
  assert (forall (number : Type) (N : JSNumber number)
                 (hs hs' : list (Holder.t number)),
            hs ≡ₚ hs' ->
            ltb (Acc.totalShares (mainHolder hs))
                (Acc.totalShares (mainHolder hs')) = false) as Hgen.
  { intros number N hs hs' Hperm.
    destruct (mainHolder_cases hs') as [[-> _]|[_ Hmax']].
    { apply (fold_pickHolder_not_below_zero hs noHolder), ltb_irrefl. }
    destruct Hmax' as (i' & h' & Hi' & -> & _). simpl.
    assert (h' ∈ hs) as Hin.
    { rewrite Hperm. by eapply list_elem_of_lookup_2. }
    destruct (mainHolder_cases hs) as [[-> Hall]|[_ Hmax]].
    { by apply Hall. }
    destruct Hmax as (i & h & Hi & -> & Hge & _). simpl.
    apply list_elem_of_lookup in Hin as [j Hj]. by eapply Hge. }
  split; [exact Hgen|].
  intros hs hs' Hperm.
  pose proof (Hgen Z Z_number hs hs' Hperm) as H1.
  pose proof (Hgen Z Z_number hs' hs (symmetry Hperm)) as H2.
  simpl in H1, H2. apply Z.ltb_ge in H1, H2. lia.
Qed.

Lemma main_holder_share_order_free_witness :
  Acc.totalShares (mainHolder [holderZ "A" 40; holderZ "B" 60; holderZ "C" 60])
  = Acc.totalShares
      (mainHolder [holderZ "C" 60; holderZ "A" 40; holderZ "B" 60]) /\
  Acc.name (mainHolder [holderZ "C" 60; holderZ "A" 40; holderZ "B" 60])
  = str "C".
Proof.
  split; [|reflexivity].
  apply (proj2 main_holder_share_order_free
           [holderZ "A" 40; holderZ "B" 60; holderZ "C" 60]
           [holderZ "C" 60; holderZ "A" 40; holderZ "B" 60]).
  rewrite (Permutation_swap (holderZ "A" 40) (holderZ "C" 60)).
  apply Permutation_skip, Permutation_swap.
Defined.

(** ** More on the score *)

Lemma countPositive_extremes {number} (insights : list (Insight number))
    (s : Stock.t number) (vs : list bool) :
  Forall2 (fun i v => verify i s = Some v) insights vs ->
  (countPositive vs = length insights <->
   Forall (fun i => verify i s = Some true) insights) /\
  (countPositive vs = 0 <->
   Forall (fun i => verify i s = Some false) insights).
Proof.
  induction 1 as [|i v insights vs Hi Hvs [IHfull IHnone]]; [by split|].
  pose proof (countPositive_le vs) as Hle.
  rewrite <-(Forall2_length _ _ _ Hvs) in Hle.
  rewrite !Forall_cons. unfold countPositive in *.
  destruct v; simpl in *.
  - split.
    + rewrite <-IHfull. split; [intros [= ?]; by split|intros [_ ->]; done].
    + split; [done|]. intros [? _]. congruence.
  - split.
    + split; [lia|]. intros [? _]. congruence.
    + rewrite <-IHnone. split; [by split|by intros [_ ?]].
Qed.

(** X12: a row has the full score exactly when every insight of the
    registry answered [true] for its stock, and the score 0 exactly when
    every insight answered [false]. *)
Theorem score_extremes (number : Type) (N : JSNumber number)
    (insights : list (Insight number)) (s : Stock.t number)
    (row : MappedStock.t number) :
  mappedStock insights s = Some row ->
  (MappedStock.positiveInsights row = length insights <->
   Forall (fun i => verify i s = Some true) insights) /\
  (MappedStock.positiveInsights row = 0 <->
   Forall (fun i => verify i s = Some false) insights).
Proof.
  intros (st & vs & _ & Hvs%verdicts_Some & ->)%mappedStock_Some. simpl.
  by apply countPositive_extremes.
Qed.

Lemma score_extremes_witness :
  exists row,
    mappedStock [likes "B"; always true] (stockZ "B" [] []) = Some row /\
    MappedStock.positiveInsights row = 2.
Proof.
  eexists. split; [reflexivity|].
  apply (score_extremes Z Z_number [likes "B"; always true]
           (stockZ "B" [] []) _ eq_refl).
  repeat constructor.
Defined.

(** ** An empty collection *)

(** X13: on an empty collection the pass succeeds whatever the registry
    holds, insights that always throw included, and puts an empty array on
    display. *)
Theorem pass_on_empty_data (number : Type) (N : JSNumber number)
    (insights : list (Insight number)) (d : nat) (w : AppState number) :
  readStocks (store w) d = Some [] ->
  exists w',
    useEffect insights (Some d) w = Some w' /\
    readRows (store w') (mappedData w') = Some [].
Proof.
  intros Hd. eexists. split.
  - apply useEffect_Some. by exists [], [].
  - simpl. apply readRows_alloc.
Qed.

Lemma pass_on_empty_data_witness :
  exists w',
    useEffect [throwing] (Some 0) (initialState []) = Some w' /\
    readRows (store w') (mappedData w') = Some [].
Proof.
  apply (pass_on_empty_data Z Z_number [throwing] 0 (initialState [])).
  reflexivity.
Defined.

(** ** The page over time *)

Section PageInvariant.
Context {number : Type} `{!JSNumber number}.
Implicit Types (insights : list (Insight number)) (w : AppState number).
Implicit Types (data : list (Stock.t number)).

Lemma pageInv_initial insights data :
  pageInv insights 0 data (initialState data).
Proof.
  split; [done|]. split; [|done]. exists []. by split.
Qed.

Lemma pageInv_step insights d data w w' :
  pageInv insights d data w -> pageStep insights d w w' ->
  pageInv insights d data w'.
Proof.
  intros (Hdata & (shown & Hshown & Hrows) & Hview) Hstep.
  destruct Hstep as [w w' Heffect|w w' rows row Hread Hrow Hclick|w].
  - apply useEffect_Some in Heffect as (stocks & rows & Hd & Hmap & ->).
    rewrite Hdata in Hd. injection Hd as <-.
    pose proof (readStocks_lt _ _ _ Hdata) as Hlt.
    split; [|split; [|done]]; simpl.
    + unfold readStocks in *. by rewrite lookup_app_l.
    + exists (arraySort byScore rows). split; [apply readRows_alloc|].
      rewrite (arraySort_perm rows). apply mapM_Some in Hmap.
      apply Forall_forall. intros row Hin.
      apply list_elem_of_lookup in Hin as [k Hk].
      destruct (Forall2_lookup_r _ _ _ _ _ Hmap Hk) as (s & Hs & Hrow).
      exists s. split; [by eapply list_elem_of_lookup_2|done].
  - rewrite Hshown in Hread. injection Hread as <-.
    pose proof Hrows as Hall. rewrite Forall_forall in Hall.
    destruct (Hall row Hrow) as (s0 & _ & Hrow0).
    apply mappedStock_Some in Hrow0 as (st & vs & _ & _ & Hrow0).
    assert (MappedStock.name row = removeSpecial (Stock.name s0)) as Hname
      by (by rewrite Hrow0).
    destruct (onRowClick_cases d row w data Hdata)
      as [[_ Hsame]|(i & s & w'' & Hi & Hs & _ & Hclick' & Hst & Hsto & Hmd & _)].
    + rewrite Hclick in Hsame. injection Hsame as ->.
      split; [done|]. split; [by exists shown|done].
    + rewrite Hclick in Hclick'. injection Hclick' as <-.
      split; [by rewrite Hsto|]. split.
      * exists shown. by rewrite Hsto, Hmd.
      * intros s' Hs'. rewrite Hst in Hs'. injection Hs' as <-.
        split; [by eapply list_elem_of_lookup_2|].
        rewrite Hs, Hname. apply removeSpecial_no_special.
  - split; [done|]. split; [by exists shown|done].
Qed.

Lemma pageInv_reachable insights data w :
  rtc (pageStep insights 0) (initialState data) w ->
  pageInv insights 0 data w.
Proof.
  revert w. apply rtc_ind_r; [apply pageInv_initial|].
  intros w1 w2 _ Hstep IH. by eapply pageInv_step.
Qed.

End PageInvariant.


(** X17: the detail view never shows a stock whose name has a character
    outside [\w] and [\s]: however the page got to its state, the stock
    in the view, if any, is a stock of [data] with a clean name, and its
    name is the title of the panel. *)
Theorem detail_view_shows_clean_names (number : Type) (N : JSNumber number)
    (insights : list (Insight number)) (data : list (Stock.t number))
    (w : AppState number) :
  rtc (pageStep insights 0) (initialState data) w ->
  (forall s, stock w = Some s ->
     s ∈ data /\ Forall (fun c => special c = false) (Stock.name s) /\
     insightsTitle w = Stock.name s /\ closed w = false) /\
  (forall s, Exists (fun c => special c = true) (Stock.name s) ->
     stock w <> Some s).
Proof.
  intros (_ & _ & Hview)%pageInv_reachable.
  assert (forall s, stock w = Some s ->
     s ∈ data /\ Forall (fun c => special c = false) (Stock.name s) /\
     insightsTitle w = Stock.name s /\ closed w = false) as Hopen.
  { intros s Hs. destruct (Hview s Hs) as [Hin Hclean].
    unfold insightsTitle, closed. by rewrite Hs. }
  split; [exact Hopen|].
  intros s Hspecial Hs. destruct (Hopen s Hs) as (_ & Hclean & _).
  apply Exists_exists in Hspecial as (c & Hc & Hsp).
  rewrite Forall_forall in Hclean. rewrite (Hclean c Hc) in Hsp. discriminate.
Qed.

(** A run of the page: the effect, a click on the second row, the effect
    again. *)
Example page_run :
  exists w,
    rtc (pageStep [always true] 0)
        (initialState [stockZ "B3 S.A." [] []; stockZ "VALE3" [] []]) w /\
    stock w = Some (stockZ "VALE3" [] []) /\
    mappedData w = 3.
Proof.
  eexists. split.
  - eapply rtc_l; [apply EffectRuns; reflexivity|].
    eapply rtc_l.
    { eapply RowClicked;
        [vm_compute; reflexivity
        |apply list_elem_of_further, list_elem_of_here
        |vm_compute; reflexivity]. }
    eapply rtc_l; [apply EffectRuns; reflexivity|]. apply rtc_refl.
  - split; reflexivity.
Qed.


Lemma detail_view_shows_clean_names_witness :
  exists w,
    rtc (pageStep [always true] 0)
        (initialState [stockZ "B3 S.A." [] []; stockZ "VALE3" [] []]) w /\
    stock w = Some (stockZ "VALE3" [] []) /\
    insightsTitle w = str "VALE3" /\
    stock w <> Some (stockZ "B3 S.A." [] []).
Proof.
  destruct page_run as (w & Hrun & Hview & _).
  exists w. split; [exact Hrun|]. split; [exact Hview|].
  destruct (detail_view_shows_clean_names Z Z_number [always true]
              [stockZ "B3 S.A." [] []; stockZ "VALE3" [] []] w Hrun)
    as [Hopen Hnever].
  split.
  - apply (Hopen (stockZ "VALE3" [] []) Hview).
  - apply Hnever. do 4 apply Exists_cons_tl. apply Exists_cons_hd. reflexivity.
Defined.

(** ** Reading a score back *)

Lemma str_inj (s s' : string) : str s = str s' -> s = s'.
Proof.
  unfold str. intros Heq.
  rewrite <-(string_of_list_ascii_of_string s),
          <-(string_of_list_ascii_of_string s').
  f_equal. revert Heq.
  generalize (list_ascii_of_string s) (list_ascii_of_string s').
  induction l as [|a l IH]; intros [|a' l'] [=]; [done|].
  f_equal; [|by apply IH].
  by rewrite <-(ascii_N_embedding a), <-(ascii_N_embedding a'); f_equal.
Qed.

Lemma pretty_N_go_no_slash (x : N) : forall s,
  "/"%char ∉ list_ascii_of_string s ->
  "/"%char ∉ list_ascii_of_string (pretty_N_go x s).
Proof.
  induction (N.lt_wf_0 x) as [x _ IH]; intros s Hs.
  assert (x = 0 \/ 0 < x)%N as [->|Hpos] by lia.
  - by rewrite pretty_N_go_0.
  - rewrite pretty_N_go_step by done. apply IH; [by apply N.div_lt|].
    simpl. intros [Hc|Hin]%elem_of_cons; [|done].
    unfold pretty_N_char in Hc. by repeat case_match.
Qed.

Lemma showNat_no_slash (n : nat) : 47%N ∉ showNat n.
Proof.
  unfold showNat, str. intros (a & Ha & Hin)%list_elem_of_fmap.
  assert (a = "/"%char) as ->.
  { by rewrite <-(ascii_N_embedding a), <-Ha. }
  revert Hin. unfold pretty, pretty_nat, pretty, pretty_N.
  case_decide.
  { simpl. intros Hin. apply elem_of_cons in Hin as [Hc|Hin]; [done|].
    by apply elem_of_nil in Hin. }
  apply pretty_N_go_no_slash. simpl. apply not_elem_of_nil.
Qed.

Lemma app_separator_inj (c : N) (a : jsstring) : forall a' b b',
  c ∉ a -> c ∉ a' -> a ++ c :: b = a' ++ c :: b' -> a = a' /\ b = b'.
Proof.
  induction a as [|x a IH]; intros [|x' a'] b b' Ha Ha'; simpl.
  - by intros [= ->].
  - intros [= <- _]. destruct Ha'. left.
  - intros [= -> _]. destruct Ha. left.
  - intros [= <- Heq].
    apply not_elem_of_cons in Ha as [_ Ha].
    apply not_elem_of_cons in Ha' as [_ Ha'].
    by destruct (IH a' b b' Ha Ha' Heq) as [-> ->].
Qed.

(** X18: a score can be read back: the string [k/n] is the score of no
    other pair of a count and a registry size. *)
Theorem insights_score_injective (positive total positive' total' : nat) :
  insightsScore positive total = insightsScore positive' total' ->
  positive = positive' /\ total = total'.
Proof.
  unfold insightsScore. change (str "/") with [47%N]. simpl.
  intros [Hp Ht]%app_separator_inj; [|apply showNat_no_slash..].
  unfold showNat in *.
  split; eapply (inj pretty), str_inj; done.
Qed.

Lemma insights_score_injective_witness :
  insightsScore 12 4 = str "12/4" /\
  insightsScore (countPositive [true; false; true]) 3 = insightsScore 2 3 /\
  countPositive [true; false; true] = 2.
Proof.
  split; [reflexivity|]. split; [reflexivity|].
  apply (insights_score_injective (countPositive [true; false; true]) 3 2 3).
  reflexivity.
Defined.
